(** * Intent resolution of the eWeb MCP server

    A shallow embedding of [src/mcp_server.py] (brand and time-window
    extraction, the [/intent] handler) and of [src/eweb_client.py] (the
    collaborator client), with the parts of the Python runtime they rely on:
    [str] operations, the backtracking semantics of [re], the proleptic
    Gregorian calendar of [datetime], and keyword-argument binding.

    Conventions.  A Python [str] is a [string]; a character [ascii] stands
    for the code point of the same number, so texts range over U+0000 to
    U+00FF and the character tables below are the Unicode ones restricted to
    that range.  [Optional[str]] is [option string].  A Python [dict] with
    string keys is a [gmap string _].  A raised exception is the [Raise]
    alternative of [result].  The interpreter is taken with its documented
    defaults: [int] refuses texts of more than 4300 digits, [strftime]
    prints the year with four digits, a [datetime] lies between 0001-01-01
    and 9999-12-31 and a [timedelta] within 999999999 days. *)

From Stdlib Require Import ZArith Lia List String Ascii Bool Sorted.
From stdpp Require Import base option gmap strings.
Import ListNotations.

Open Scope string_scope.

(** ** Exceptions and results *)

Inductive exn : Type :=
| ValueError (msg : string)
| TypeError
| OverflowError
| HTTPException (status_code : Z) (detail : string)
| HTTPError (info : string).

Inductive result (A : Type) : Type :=
| Ok (a : A)
| Raise (e : exn).

Arguments Ok {A} a.
Arguments Raise {A} e.

Definition rbind {A B : Type} (r : result A) (k : A -> result B) : result B :=
  match r with
  | Ok a => k a
  | Raise e => Raise e
  end.

(** ** Python [str] *)

Module PyStr.

Definition code (c : ascii) : N := N_of_ascii c.

Definition between (lo hi : N) (c : ascii) : bool :=
  ((lo <=? code c) && (code c <=? hi))%N.

Definition is_AZ (c : ascii) : bool := between 65 90 c.
Definition is_az (c : ascii) : bool := between 97 122 c.
Definition is_09 (c : ascii) : bool := between 48 57 c.

(** [str.lower] on one character: A-Z, and the Latin-1 capitals U+00C0 to
    U+00DE except the multiplication sign U+00D7, move up by 32. *)
Definition lower_char (c : ascii) : ascii :=
  if is_AZ c || (between 192 222 c && negb (code c =? 215)%N)
  then ascii_of_N (code c + 32)
  else c.

Fixpoint lower (s : string) : string :=
  match s with
  | EmptyString => EmptyString
  | String c s' => String (lower_char c) (lower s')
  end.

(** The regular-expression classes [\d], [\s] and [\w] of a [str] pattern. *)
Definition is_digit (c : ascii) : bool := is_09 c.

Definition is_space (c : ascii) : bool :=
  between 9 13 c || between 28 32 c || (code c =? 133)%N || (code c =? 160)%N.

Definition is_alnum (c : ascii) : bool :=
  is_az c || is_AZ c || is_09 c
  || (code c =? 170)%N || between 178 179 c || (code c =? 181)%N
  || between 185 186 c || between 188 190 c
  || between 192 214 c || between 216 246 c || between 248 255 c.

Definition is_word (c : ascii) : bool := is_alnum c || (code c =? 95)%N.

(** [str.isdigit]: non-empty, every character has the digit property (the
    decimal digits and the superscripts one, two and three). *)
Definition isdigit_char (c : ascii) : bool :=
  is_09 c || between 178 179 c || (code c =? 185)%N.

Fixpoint all_chars (p : ascii -> bool) (s : string) : bool :=
  match s with
  | EmptyString => true
  | String c s' => p c && all_chars p s'
  end.

Definition isdigit (s : string) : bool :=
  negb (s =? "") && all_chars isdigit_char s.

(** [strip w s] removes the prefix [w] from [s] when [s] starts with it. *)
Fixpoint strip (w s : string) : option string :=
  match w with
  | EmptyString => Some s
  | String a w' =>
      match s with
      | EmptyString => None
      | String b s' => if Ascii.eqb a b then strip w' s' else None
      end
  end.

Definition startswith (s w : string) : bool :=
  match strip w s with Some _ => true | None => false end.

(** [sub in s]. *)
Fixpoint contains (sub s : string) : bool :=
  startswith s sub
  || match s with
     | EmptyString => false
     | String _ s' => contains sub s'
     end.

Fixpoint rstrip (ch : ascii) (s : string) : string :=
  match s with
  | EmptyString => EmptyString
  | String c s' =>
      let r := rstrip ch s' in
      if Ascii.eqb c ch && (r =? "") then EmptyString else String c r
  end.

Fixpoint lstrip (ch : ascii) (s : string) : string :=
  match s with
  | EmptyString => EmptyString
  | String c s' => if Ascii.eqb c ch then lstrip ch s' else s
  end.

(** Value of a run of decimal digits, most significant first. *)
Definition digit_value (c : ascii) : Z := Z.of_N (code c) - 48.

Fixpoint decimal_value (acc : Z) (s : string) : Z :=
  match s with
  | EmptyString => acc
  | String c s' => decimal_value (10 * acc + digit_value c) s'
  end.

(** Default of [sys.get_int_max_str_digits()]. *)
Definition int_max_str_digits : nat := 4300.

(** [int(s)] for a text without sign, blanks or underscores. *)
Definition py_int (s : string) : result Z :=
  if negb (s =? "") && all_chars is_09 s then
    if (int_max_str_digits <? String.length s)%nat
    then Raise (ValueError "Exceeds the limit (4300 digits) for integer string conversion")
    else Ok (decimal_value 0 s)
  else Raise (ValueError "invalid literal for int() with base 10").

(** Truth value of an [Optional[str]]: [None] and the empty text are false. *)
Definition truthy (o : option string) : bool :=
  match o with
  | Some s => negb (s =? "")
  | None => false
  end.

(** [a or b]. *)
Definition or_else (a b : option string) : option string :=
  if truthy a then a else b.

End PyStr.

(** ** Python [re]: backtracking matcher *)

Module Re.
Import PyStr.

(** The fragment of the pattern language the server uses.  Repetition is
    only ever applied to a character class. *)
Inductive re : Type :=
| Cls (p : ascii -> bool)
| Lit (w : string)
| Seq (r1 r2 : re)
| Alt (r1 r2 : re)
| Star (p : ascii -> bool)
| Plus (p : ascii -> bool)
| Opt (r : re)
| Group (r : re)
| WordB.

(** One way of matching at a position: the text consumed, the text left, and
    the contents of the capturing groups, outermost and leftmost first. *)
Record hit : Type := Hit { matched : string; rest : string; groups : list string }.

Definition first_char (s : string) : option ascii :=
  match s with
  | EmptyString => None
  | String c _ => Some c
  end.

Fixpoint last_char (prev : option ascii) (s : string) : option ascii :=
  match s with
  | EmptyString => prev
  | String c s' => last_char (Some c) s'
  end.

Definition is_word_at (o : option ascii) : bool :=
  match o with
  | Some c => is_word c
  | None => false
  end.

(** [\b] between the character before and the character after a position. *)
Definition word_boundary (before after : option ascii) : bool :=
  xorb (is_word_at before) (is_word_at after).

(** All ways to split off a run of class characters, longest first. *)
Fixpoint many (p : ascii -> bool) (s : string) : list (string * string) :=
  match s with
  | EmptyString => [(EmptyString, EmptyString)]
  | String c s' =>
      if p c
      then map (fun us => (String c (fst us), snd us)) (many p s') ++ [(EmptyString, s)]
      else [(EmptyString, s)]
  end.

Definition many1 (p : ascii -> bool) (s : string) : list (string * string) :=
  match s with
  | EmptyString => []
  | String c s' =>
      if p c then map (fun us => (String c (fst us), snd us)) (many p s') else []
  end.

(** [exec r prev s]: every way [r] matches at the start of [s], where [prev]
    is the character just before, in the order a backtracking search tries
    them.  The head of the list is the match Python reports. *)
Fixpoint exec (r : re) (prev : option ascii) (s : string) : list hit :=
  match r with
  | Cls p =>
      match s with
      | String c s' => if p c then [Hit (String c EmptyString) s' []] else []
      | EmptyString => []
      end
  | Lit w =>
      match strip w s with
      | Some s' => [Hit w s' []]
      | None => []
      end
  | Seq r1 r2 =>
      flat_map
        (fun h1 =>
           map (fun h2 => Hit (matched h1 +:+ matched h2) (rest h2)
                              (groups h1 ++ groups h2)%list)
               (exec r2 (last_char prev (matched h1)) (rest h1)))
        (exec r1 prev s)
  | Alt r1 r2 => exec r1 prev s ++ exec r2 prev s
  | Star p => map (fun us => Hit (fst us) (snd us) []) (many p s)
  | Plus p => map (fun us => Hit (fst us) (snd us) []) (many1 p s)
  | Opt r1 => exec r1 prev s ++ [Hit EmptyString s []]
  | Group r1 =>
      map (fun h => Hit (matched h) (rest h) (matched h :: groups h))
          (exec r1 prev s)
  | WordB => if word_boundary prev (first_char s) then [Hit EmptyString s []] else []
  end.

(** [re.search]: the first position, left to right, with a match. *)
Fixpoint search_from (r : re) (prev : option ascii) (s : string) : option hit :=
  match exec r prev s with
  | h :: _ => Some h
  | [] =>
      match s with
      | String c s' => search_from r (Some c) s'
      | EmptyString => None
      end
  end.

Definition search (r : re) (s : string) : option hit := search_from r None s.

(** [re.findall] for a pattern with one group: the group of each match of a
    left-to-right scan that resumes where the previous match ended.  An
    empty match is recorded and the scan moves on by one character. *)
Fixpoint findall_from (fuel : nat) (r : re) (prev : option ascii) (s : string)
  : list string :=
  match fuel with
  | O => []
  | S fuel' =>
      match exec r prev s with
      | h :: _ =>
          match matched h with
          | EmptyString =>
              hd EmptyString (groups h)
              :: match s with
                 | String c s' => findall_from fuel' r (Some c) s'
                 | EmptyString => []
                 end
          | String _ _ =>
              hd EmptyString (groups h)
              :: findall_from fuel' r (last_char prev (matched h)) (rest h)
          end
      | [] =>
          match s with
          | String c s' => findall_from fuel' r (Some c) s'
          | EmptyString => []
          end
      end
  end.

Definition findall (r : re) (s : string) : list string :=
  findall_from (S (String.length s)) r None s.

End Re.

(** ** Python [datetime] *)

Module Datetime.
Local Open Scope Z_scope.

(** A [datetime] is represented by the proleptic Gregorian ordinal of its
    date, [toordinal()]: day 1 is 0001-01-01 and [_MAXORDINAL] is
    9999-12-31.  The time of day is left out: the server adds or subtracts
    whole days only and prints the date only. *)
Definition _MAXORDINAL : Z := 3652059.
Definition _DI400Y : Z := 146097.
Definition _DI100Y : Z := 36524.
Definition _DI4Y : Z := 1461.

Definition _DAYS_IN_MONTH : list Z :=
  [-1; 31; 28; 31; 30; 31; 30; 31; 31; 30; 31; 30; 31].

Definition _DAYS_BEFORE_MONTH : list Z :=
  [-1; 0; 31; 59; 90; 120; 151; 181; 212; 243; 273; 304; 334].

Definition at_month (table : list Z) (month : Z) : Z :=
  nth (Z.to_nat month) table 0.

Definition valid_ordinal (n : Z) : Prop := 1 <= n <= _MAXORDINAL.

(** Month and day of the [n]-th day (from 0) of a year. *)
Definition month_day (leapyear : bool) (n : Z) : Z * Z :=
  let month := Z.shiftr (n + 50) 5 in
  let preceding :=
    at_month _DAYS_BEFORE_MONTH month
    + (if (2 <? month) && leapyear then 1 else 0) in
  if n <? preceding then
    let month' := month - 1 in
    let preceding' :=
      preceding
      - (at_month _DAYS_IN_MONTH month'
         + (if (month' =? 2) && leapyear then 1 else 0)) in
    (month', n - preceding' + 1)
  else (month, n - preceding + 1).

(** Ordinal to (year, month, day). *)
Definition _ord2ymd (ordinal : Z) : Z * Z * Z :=
  let n := ordinal - 1 in
  let n400 := n / _DI400Y in
  let n := n mod _DI400Y in
  let year := n400 * 400 + 1 in
  let n100 := n / _DI100Y in
  let n := n mod _DI100Y in
  let n4 := n / _DI4Y in
  let n := n mod _DI4Y in
  let n1 := n / 365 in
  let n := n mod 365 in
  let year := year + n100 * 100 + n4 * 4 + n1 in
  if (n1 =? 4) || (n100 =? 4) then (year - 1, 12, 31)
  else
    let leapyear := (n1 =? 3) && (negb (n4 =? 24) || (n100 =? 3)) in
    let md := month_day leapyear n in
    (year, fst md, snd md).

(** [timedelta(days=d)]. *)
Definition timedelta (days : Z) : result Z :=
  if Z.abs days <=? 999999999 then Ok days else Raise OverflowError.

(** [dt - delta]. *)
Definition sub (ordinal delta : Z) : result Z :=
  let r := ordinal - delta in
  if (1 <=? r) && (r <=? _MAXORDINAL) then Ok r else Raise OverflowError.

Definition digit_char (d : Z) : ascii := ascii_of_N (Z.to_N (48 + d)).

(** The [width] low-order decimal digits of [n]: the zero-padded decimal
    rendering whenever [n] has at most [width] digits. *)
Fixpoint zfill (width : nat) (n : Z) : string :=
  match width with
  | O => EmptyString
  | S w => zfill w (n / 10) +:+ String (digit_char (n mod 10)) EmptyString
  end.


(** [%Y] for a year from 1 to 9999.  [strftime] hands the format to the C
    library, and glibc prints the year in decimal without padding: "1" for
    the year 1, "999" for 999, four digits from 1000 on. *)
Definition year_text (y : Z) : string :=
  if y <? 10 then zfill 1 y
  else if y <? 100 then zfill 2 y
  else if y <? 1000 then zfill 3 y
  else zfill 4 y.

(** [dt.strftime("%Y-%m-%d")]. *)
Definition strftime_Ymd (ordinal : Z) : string :=
  let '(y, m, d) := _ord2ymd ordinal in
  year_text y +:+ "-" +:+ zfill 2 m +:+ "-" +:+ zfill 2 d.

End Datetime.

Import PyStr Re Datetime.

(** ** Calls with keyword arguments *)

(** Binding of a call [f(k1=v1, ..., **mapping)] to a function whose
    keyword-only parameters are [names]: a key given both explicitly and
    through the mapping raises [TypeError], and so does a key that names no
    parameter.  Parameters that receive nothing keep their defaults. *)
Definition bind_keywords {V : Type} (names : list string)
    (explicit : list (string * V)) (mapping : gmap string V)
  : result (gmap string V) :=
  if existsb (fun kv => bool_decide (is_Some (mapping !! fst kv))) explicit
  then Raise TypeError
  else
    let kwargs : gmap string V := list_to_map explicit ∪ mapping in
    if forallb (fun k => bool_decide (k ∈ names)) (map fst (map_to_list kwargs))
    then Ok kwargs
    else Raise TypeError.

(** ** [eweb_client.py] *)

Inductive pyval : Type :=
| VStr (s : string)
| VInt (n : Z).

(** What [httpx.Client.request] is called with ([json] is always [None]). *)
Record Request : Type := {
  method : string;
  url : string;
  headers : gmap string string;
  params : gmap string pyval
}.

Record EWebCredentials : Type := {
  base_url : string;
  api_key : string;
  account_id : option string;
  default_supplier_id : option string
}.

Record EWebClient : Type := {
  credentials : EWebCredentials;
  timeout : Z
}.

Section Collaborator.

(** The JSON object a response decodes to; the server never looks inside. *)
Variable Payload : Type.

(** What the remote eWeb service does with a request: it answers with a
    payload, or the request fails (a transport error, an error status turned
    into an exception by [raise_for_status], a body that is not JSON). *)
Inductive response : Type :=
| Received (payload : Payload)
| Failed (info : string).

(** What a request handler sees of the outside: the process environment as
    [os.getenv] reads it once [load_dotenv()] has run, the UTC date of the
    clock (as an ordinal), and the remote service. *)
Record World : Type := {
  environ : gmap string string;
  utcnow : Z;
  network : Request -> response
}.

(** Computations that may send requests and may raise; the state is the list
    of requests sent so far, oldest first. *)
Definition M (A : Type) : Type := list Request -> result A * list Request.

Definition ret {A : Type} (a : A) : M A := fun sent => (Ok a, sent).

Definition raise {A : Type} (e : exn) : M A := fun sent => (Raise e, sent).

Definition lift {A : Type} (r : result A) : M A := fun sent => (r, sent).

Definition bind {A B : Type} (m : M A) (k : A -> M B) : M B :=
  fun sent =>
    match m sent with
    | (Ok a, sent') => k a sent'
    | (Raise e, sent') => (Raise e, sent')
    end.

(** [EWebClient.__init__]. *)
Definition __init__ (w : World)
    (base_url api_key account_id default_supplier_id : option string)
  : result EWebClient :=
  let base_url := or_else base_url (environ w !! "EWEB_BASE_URL") in
  let api_key := or_else api_key (environ w !! "EWEB_API_KEY") in
  let account_id := or_else account_id (environ w !! "EWEB_ACCOUNT_ID") in
  let default_supplier_id :=
    or_else default_supplier_id (environ w !! "EWEB_DEFAULT_SUPPLIER_ID") in
  if negb (truthy base_url) then
    Raise (ValueError "EWEB_BASE_URL must be provided via environment variables")
  else if negb (truthy api_key) then
    Raise (ValueError "EWEB_API_KEY must be provided via environment variables")
  else
    Ok {| credentials :=
            {| base_url := rstrip "/" (default "" base_url);
               api_key := default "" api_key;
               account_id := account_id;
               default_supplier_id := default_supplier_id |};
          timeout := 30 |}.

Definition _headers (self : EWebClient) : gmap string string :=
  let headers : gmap string string :=
    {[ "Authorization" := "Bearer " +:+ api_key (credentials self);
       "Accept" := "application/json";
       "Content-Type" := "application/json" ]} in
  match account_id (credentials self) with
  | Some a => if negb (a =? "") then <["X-Account-ID" := a]> headers else headers
  | None => headers
  end.

Definition _request (w : World) (self : EWebClient) (method path : string)
    (params : option (gmap string (option pyval))) : M Payload :=
  let url := base_url (credentials self) +:+ "/" +:+ lstrip "/" path in
  let request :=
    {| method := method;
       url := url;
       headers := _headers self;
       params := omap (fun v => v) (default ∅ params) |} in
  fun sent =>
    (match network w request with
     | Received payload => Ok payload
     | Failed info => Raise (HTTPError info)
     end,
     (sent ++ [request])%list).

Definition get_supplier_stock (w : World) (self : EWebClient)
    (supplier_id brand : option string) (page page_size : Z) : M Payload :=
  let supplier_id := or_else supplier_id (default_supplier_id (credentials self)) in
  if negb (truthy supplier_id) then
    raise (ValueError
      "A supplier_id is required. Configure EWEB_DEFAULT_SUPPLIER_ID or pass a value.")
  else
    let params : gmap string (option pyval) :=
      {[ "supplierId" := VStr <$> supplier_id;
         "brand" := VStr <$> brand;
         "page" := Some (VInt page);
         "pageSize" := Some (VInt page_size) ]} in
    _request w self "GET" "/inventory/supplier-stock" (Some params).

Definition get_sales_history (w : World) (self : EWebClient)
    (sku upc brand start_date end_date location_id : option string) : M Payload :=
  if negb (existsb truthy [sku; upc; brand]) then
    raise (ValueError "At least one of sku, upc, or brand must be provided")
  else
    let params : gmap string (option pyval) :=
      {[ "sku" := VStr <$> sku;
         "upc" := VStr <$> upc;
         "brand" := VStr <$> brand;
         "startDate" := VStr <$> start_date;
         "endDate" := VStr <$> end_date;
         "locationId" := VStr <$> location_id ]} in
    _request w self "GET" "/sales/history" (Some params).

(** The keyword-only parameters of [get_sales_history], and the method
    applied to already bound keyword arguments. *)
Definition get_sales_history_names : list string :=
  ["sku"; "upc"; "brand"; "start_date"; "end_date"; "location_id"].

Definition get_sales_history_kw (w : World) (self : EWebClient)
    (kwargs : gmap string (option string)) : M Payload :=
  let arg (name : string) : option string := default None (kwargs !! name) in
  get_sales_history w self (arg "sku") (arg "upc") (arg "brand")
    (arg "start_date") (arg "end_date") (arg "location_id").

End Collaborator.

Arguments Build_World {Payload} environ utcnow network.
Arguments Received {Payload} payload.
Arguments Failed {Payload} info.
Arguments environ {Payload} w.
Arguments utcnow {Payload} w.
Arguments network {Payload} w _.
Arguments ret {A} a _.
Arguments raise {A} e _.
Arguments lift {A} r _.
Arguments bind {A B} m k _.
Arguments __init__ {Payload} w base_url api_key account_id default_supplier_id.
Arguments _request {Payload} w self method path params _.
Arguments get_supplier_stock {Payload} w self supplier_id brand page page_size _.
Arguments get_sales_history {Payload} w self sku upc brand start_date end_date
  location_id _.
Arguments get_sales_history_kw {Payload} w self kwargs _.

Notation "x <- m ;; k" := (bind m (fun x => k))
  (at level 100, m at next level, right associativity).

(** ** [mcp_server.py] *)

Record IntentRequest : Type := {
  query : string;
  supplier_id : option string
}.

Record IntentResponse (Payload : Type) : Type := {
  intent : string;
  parameters : gmap string (option string);
  data : Payload
}.

Arguments intent {Payload} _.
Arguments parameters {Payload} _.
Arguments data {Payload} _.

(** Right-nested alternation [r|r1|...|rn]. *)
Fixpoint alts (r : re) (rs : list re) : re :=
  match rs with
  | [] => r
  | r' :: rs' => Alt r (alts r' rs')
  end.

(** The class [[A-Za-z0-9&'-]]. *)
Definition brand_char (c : ascii) : bool :=
  is_AZ c || is_az c || is_09 c
  || Ascii.eqb c "&" || Ascii.eqb c "'" || Ascii.eqb c "-".

(** The pattern [\b([A-Z][A-Za-z0-9&'-]+)\b]. *)
Definition brand_re : re :=
  Seq WordB (Seq (Group (Seq (Cls is_AZ) (Plus brand_char))) WordB).

Definition brand_stopwords : list string :=
  ["show"; "get"; "sales"; "inventory"; "stock"].

Definition is_stopword (word : string) : bool :=
  existsb (String.eqb word) brand_stopwords.

(** The body of the loop over the candidates. *)
Fixpoint first_brand (candidates : list string) : option string :=
  match candidates with
  | [] => None
  | candidate :: more =>
      if is_stopword (lower candidate) then first_brand more else Some candidate
  end.

Definition _extract_brand (text : string) : option string :=
  let candidates := findall brand_re text in
  first_brand candidates.

Definition number_words : gmap string Z :=
  list_to_map
    [("one", 1); ("two", 2); ("three", 3); ("four", 4); ("five", 5);
     ("six", 6); ("seven", 7); ("eight", 8); ("nine", 9); ("ten", 10);
     ("eleven", 11); ("twelve", 12)]%Z.

(** The class [[-\s]]. *)
Definition sep_char (c : ascii) : bool := Ascii.eqb c "-" || is_space c.

(** The pattern
    [(\d+|one|two|three|four|five|six|seven|eight|nine|ten|eleven|twelve)[-\s]*(day|week|month|year)s?],
    with a name for each of its two groups. *)
Definition quantity_re : re :=
  Group (alts (Plus is_digit)
           [Lit "one"; Lit "two"; Lit "three"; Lit "four"; Lit "five";
            Lit "six"; Lit "seven"; Lit "eight"; Lit "nine"; Lit "ten";
            Lit "eleven"; Lit "twelve"]).

Definition unit_re : re :=
  Group (alts (Lit "day") [Lit "week"; Lit "month"; Lit "year"]).

Definition time_window_re : re :=
  Seq quantity_re (Seq (Star sep_char) (Seq unit_re (Opt (Lit "s")))).

(** [int(quantity_raw) if quantity_raw.isdigit() else number_words.get(quantity_raw, 1)]. *)
Definition quantity_of (quantity_raw : string) : result Z :=
  if isdigit quantity_raw then py_int quantity_raw
  else Ok (default 1%Z (number_words !! quantity_raw)).

(** The quantity and the unit the text names, if any: the first [if]/[elif]
    chain of [_extract_time_window]. *)
Definition find_quantity_unit (text : string) : result (option (Z * string)) :=
  match search time_window_re text with
  | Some m =>
      match groups m with
      | [quantity_raw; unit] =>
          rbind (quantity_of quantity_raw)
                (fun quantity => Ok (Some (quantity, unit)))
      | _ => Raise (ValueError "not enough values to unpack")
      end
  | None =>
      if contains "last year" text then Ok (Some (1%Z, "year"))
      else if contains "last month" text then Ok (Some (1%Z, "month"))
      else if contains "last week" text then Ok (Some (1%Z, "week"))
      else Ok None
  end.

(** The second [if]/[elif] chain: the [timedelta] for a quantity and unit
    ([timedelta(weeks=q)] is [timedelta(days=7*q)]). *)
Definition delta_of (quantity : Z) (unit : string) : result Z :=
  if startswith unit "day" then timedelta quantity
  else if startswith unit "week" then timedelta (7 * quantity)
  else if startswith unit "month" then timedelta (30 * quantity)
  else timedelta (365 * quantity).

(** [_extract_time_window]; [now] is the value of [datetime.utcnow()]. *)
Definition _extract_time_window (now : Z) (text : string)
  : result (gmap string string) :=
  let text := lower text in
  rbind (find_quantity_unit text) (fun found =>
  match found with
  | None => Ok ∅
  | Some (quantity, unit) =>
      rbind (delta_of quantity unit) (fun delta =>
      rbind (sub now delta) (fun start =>
      Ok {[ "start_date" := strftime_Ymd start;
            "end_date" := strftime_Ymd now ]}))
  end).

Section Server.

Context {Payload : Type}.

(** [handle_intent], the handler of [POST /intent]. *)
Definition handle_intent (w : World Payload) (payload : IntentRequest)
  : M (IntentResponse Payload) :=
  let query_lower := lower (query payload) in
  client <- lift (__init__ w None None None None) ;;
  if existsb (fun word => contains word query_lower) ["inventory"; "stock"] then
    let supplier_id :=
      or_else (supplier_id payload) (default_supplier_id (credentials client)) in
    let brand := _extract_brand (query payload) in
    if negb (truthy supplier_id) then
      raise (HTTPException 400
        "Supplier ID is required for inventory queries. Set EWEB_DEFAULT_SUPPLIER_ID or provide one in the request.")
    else
      let params : gmap string (option string) :=
        {[ "supplier_id" := supplier_id; "brand" := brand ]} in
      data <- get_supplier_stock w client supplier_id brand 1 100 ;;
      ret {| intent := "supplier_stock"; parameters := params; data := data |}
  else if contains "sale" query_lower then
    window <- lift (_extract_time_window (utcnow w) (query payload)) ;;
    let params : gmap string (option string) := Some <$> window in
    let brand := _extract_brand (query payload) in
    let params := <["brand" := brand]> params in
    if negb (truthy brand) then
      raise (HTTPException 400
        "Unable to determine a brand or item for the sales query. Please specify a brand name.")
    else
      kwargs <- lift (bind_keywords get_sales_history_names
                        [("brand", brand)] params) ;;
      data <- get_sales_history_kw w client kwargs ;;
      ret {| intent := "sales_history"; parameters := params; data := data |}
  else
    raise (HTTPException 400 "Unable to interpret the requested intent.").

End Server.

(** [health_check], the handler of [GET /healthz]. *)
Definition health_check : gmap string string := {[ "status" := "ok" ]}.

(** ** Vocabulary of the specification *)

(** The two supported intents, and the branch of [handle_intent] a query
    text selects: the conditions of its two [if] statements, in order. *)
Inductive IntentKind : Type :=
| SupplierStock
| SalesHistory.

Definition classify (text : string) : option IntentKind :=
  let query_lower := lower text in
  if existsb (fun word => contains word query_lower) ["inventory"; "stock"]
  then Some SupplierStock
  else if contains "sale" query_lower then Some SalesHistory
  else None.

Definition supplier_required : exn :=
  HTTPException 400
    "Supplier ID is required for inventory queries. Set EWEB_DEFAULT_SUPPLIER_ID or provide one in the request.".

Definition brand_required : exn :=
  HTTPException 400
    "Unable to determine a brand or item for the sales query. Please specify a brand name.".

Definition unrecognized_intent : exn :=
  HTTPException 400 "Unable to interpret the requested intent.".

Definition base_url_required : exn :=
  ValueError "EWEB_BASE_URL must be provided via environment variables".

Definition api_key_required : exn :=
  ValueError "EWEB_API_KEY must be provided via environment variables".

(** The two blocks of [handle_intent], one per intent. *)
Definition resolve_supplier_stock {Payload : Type} (w : World Payload)
    (client : EWebClient) (payload : IntentRequest)
  : M (IntentResponse Payload) :=
  let supplier_id :=
    or_else (supplier_id payload) (default_supplier_id (credentials client)) in
  let brand := _extract_brand (query payload) in
  if negb (truthy supplier_id) then raise supplier_required
  else
    let params : gmap string (option string) :=
      {[ "supplier_id" := supplier_id; "brand" := brand ]} in
    data <- get_supplier_stock w client supplier_id brand 1 100 ;;
    ret {| intent := "supplier_stock"; parameters := params; data := data |}.

Definition resolve_sales_history {Payload : Type} (w : World Payload)
    (client : EWebClient) (payload : IntentRequest)
  : M (IntentResponse Payload) :=
  window <- lift (_extract_time_window (utcnow w) (query payload)) ;;
  let params : gmap string (option string) := Some <$> window in
  let brand := _extract_brand (query payload) in
  let params := <["brand" := brand]> params in
  if negb (truthy brand) then raise brand_required
  else
    kwargs <- lift (bind_keywords get_sales_history_names
                      [("brand", brand)] params) ;;
    data <- get_sales_history_kw w client kwargs ;;
    ret {| intent := "sales_history"; parameters := params; data := data |}.

Definition resolve {Payload : Type} (w : World Payload) (client : EWebClient)
    (payload : IntentRequest) (kind : option IntentKind)
  : M (IntentResponse Payload) :=
  match kind with
  | Some SupplierStock => resolve_supplier_stock w client payload
  | Some SalesHistory => resolve_sales_history w client payload
  | None => raise unrecognized_intent
  end.

(** The request the stock lookup sends for a supplier and a brand. *)
Definition stock_request (client : EWebClient) (sid : string)
    (brand : option string) : Request :=
  {| method := "GET";
     url := base_url (credentials client) +:+ "/inventory/supplier-stock";
     headers := _headers client;
     params :=
       match brand with
       | Some b =>
           {[ "supplierId" := VStr sid; "brand" := VStr b;
              "page" := VInt 1; "pageSize" := VInt 100 ]}
       | None =>
           {[ "supplierId" := VStr sid;
              "page" := VInt 1; "pageSize" := VInt 100 ]}
       end |}.

(** The outcome of a request: the payload received, or the failure raised. *)
Definition received {Payload : Type} (w : World Payload) (request : Request)
  : result Payload :=
  match network w request with
  | Received payload => Ok payload
  | Failed info => Raise (HTTPError info)
  end.

(** Two worlds to try the handler in: one configured, with default supplier
    "S1", on 2026-11-03; one with an empty environment. *)
Definition configured_world : World string :=
  {| environ :=
       {[ "EWEB_BASE_URL" := "https://eweb.example/api/";
          "EWEB_API_KEY" := "secret";
          "EWEB_DEFAULT_SUPPLIER_ID" := "S1" ]};
     utcnow := 739923;
     network := fun _ => Received "{}" |}.

Definition unconfigured_world : World string :=
  {| environ := ∅; utcnow := 739923; network := fun _ => Received "{}" |}.

Definition configured_client : EWebClient :=
  {| credentials :=
       {| base_url := "https://eweb.example/api";
          api_key := "secret";
          account_id := None;
          default_supplier_id := Some "S1" |};
     timeout := 30 |}.

(** [sub] occurs somewhere in [s]. *)
Definition occurs (sub s : string) : Prop :=
  exists pre post, s = pre +:+ sub +:+ post.

(** A brand candidate as the pattern has it: a capital letter A-Z followed
    by one or more letters, digits, ampersands, apostrophes or hyphens. *)
Definition brand_token (t : string) : Prop :=
  exists c tl,
    t = String c tl /\ is_AZ c = true /\ tl <> EmptyString
    /\ all_chars brand_char tl = true.

(** The same with the words of the specification: a capital letter
    optionally followed by such characters. *)
Definition spec_brand_token (t : string) : Prop :=
  exists c tl,
    t = String c tl /\ is_AZ c = true /\ all_chars brand_char tl = true.

(** [t] stands at a position whose previous character is [prev], followed by
    [post], with a word boundary on either side. *)
Definition delimited (prev : option ascii) (t post : string) : Prop :=
  word_boundary prev (first_char t) = true
  /\ word_boundary (last_char prev t) (first_char post) = true.

(** An occurrence [s = pre t post] of a delimited token of a given shape, in
    a text [s] that comes after the character [prev]; and the same in a
    whole text. *)
Definition token_from (shape : string -> Prop) (prev : option ascii)
    (s pre t post : string) : Prop :=
  s = pre +:+ t +:+ post /\ shape t /\ delimited (last_char prev pre) t post.

Definition token_in (shape : string -> Prop) (text pre t post : string) : Prop :=
  token_from shape None text pre t post.

(** What [_extract_brand] owes for a text [s] after [prev]: the longest
    token at the first place where a token that is no stopword starts, all
    tokens that start earlier being stopwords; nothing when every token is a
    stopword. *)
Definition first_token_spec (prev : option ascii) (s : string)
    (r : option string) : Prop :=
  match r with
  | Some b =>
      exists pre post,
        token_from brand_token prev s pre b post
        /\ is_stopword (lower b) = false
        /\ (forall t' post',
              token_from brand_token prev s pre t' post' ->
              (String.length t' <= String.length b)%nat)
        /\ (forall pre' t' post',
              token_from brand_token prev s pre' t' post' ->
              (String.length pre' < String.length pre)%nat ->
              is_stopword (lower t') = true)
  | None =>
      forall pre' t' post',
        token_from brand_token prev s pre' t' post' ->
        is_stopword (lower t') = true
  end.

Definition number_word_list : list string :=
  ["one"; "two"; "three"; "four"; "five"; "six"; "seven"; "eight"; "nine";
   "ten"; "eleven"; "twelve"].

Definition unit_list : list string := ["day"; "week"; "month"; "year"].

(** A digit sequence or a number word one..twelve. *)
Definition quantity_token (q : string) : Prop :=
  (q <> EmptyString /\ all_chars is_digit q = true) \/ In q number_word_list.

(** [s] starts with a quantity, separators (hyphens, blanks) and a unit. *)
Definition quantity_unit_at (s q u : string) : Prop :=
  exists sep tail,
    s = q +:+ sep +:+ u +:+ tail
    /\ quantity_token q /\ all_chars sep_char sep = true /\ In u unit_list.

Definition no_quantity_unit (text : string) : Prop :=
  forall pre s q u, text = pre +:+ s -> ~ quantity_unit_at s q u.

(** The leftmost place of [text] where a quantity and unit stand. *)
Definition leftmost_quantity_unit (text q u : string) : Prop :=
  exists pre s,
    text = pre +:+ s /\ quantity_unit_at s q u
    /\ forall pre' s' q' u',
         text = pre' +:+ s' -> (String.length pre' < String.length pre)%nat ->
         ~ quantity_unit_at s' q' u'.

(** Digit parse, or number-word lookup. *)
Definition quantity_value (q : string) : Z :=
  if all_chars is_digit q then decimal_value 0 q
  else default 1%Z (number_words !! q).

Definition days_per_unit (u : string) : Z :=
  if String.eqb u "day" then 1
  else if String.eqb u "week" then 7
  else if String.eqb u "month" then 30
  else 365.

(** The window [start, end] as the dictionary [_extract_time_window] returns. *)
Definition window (start_ end_ : Z) : gmap string string :=
  {[ "start_date" := strftime_Ymd start_; "end_date" := strftime_Ymd end_ ]}.




(** The order of the alternatives for a run: longest first. *)
Definition longer_first (a b : string * string) : Prop :=
  (String.length (fst b) <= String.length (fst a))%nat.

(** The text [s] is empty or starts with a character outside the class. *)
Definition starts_outside (p : ascii -> bool) (s : string) : Prop :=
  forall c r, s = String c r -> p c = false.

(** No text of the list is a proper prefix of another. *)
Definition prefix_free_check (l : list string) : bool :=
  forallb
    (fun a =>
       forallb
         (fun a' => match strip a a' with Some m => m =? "" | None => true end)
         l)
    l.

(** The character [ch], [n] times. *)
Fixpoint repeat_char (n : nat) (ch : ascii) : string :=
  match n with
  | O => EmptyString
  | S n' => String ch (repeat_char n' ch)
  end.

(** The status line the framework gives an outcome of a handler: a value
    returned is sent with 200, an [HTTPException] with the status it
    carries, and any other exception ends as 500 Internal Server Error. *)
Definition http_status {A : Type} (outcome : result A) : Z :=
  match outcome with
  | Ok _ => 200
  | Raise (HTTPException status_code _) => status_code
  | Raise _ => 500
  end.

(** The two errors the client raises by itself. *)
Definition client_supplier_required : exn :=
  ValueError
    "A supplier_id is required. Configure EWEB_DEFAULT_SUPPLIER_ID or pass a value.".

Definition client_item_required : exn :=
  ValueError "At least one of sku, upc, or brand must be provided".

Definition int_limit_exceeded : exn :=
  ValueError "Exceeds the limit (4300 digits) for integer string conversion".

(** Reduction of the match lists of a concrete pattern. *)
Ltac hits_cbn :=
  cbn [exec flat_map map app matched rest groups first_char last_char
       String.append andb fst snd].

(** ** Properties of [str] operations *)

#[local] Arguments String.append !s1 s2 : simpl nomatch.

Lemma app_assoc_s (a b c : string) : (a +:+ b) +:+ c = a +:+ (b +:+ c).
Proof. induction a as [|x a IH]; simpl; [reflexivity | now rewrite IH]. Qed.

Lemma app_nil_r_s (a : string) : a +:+ "" = a.
Proof. induction a as [|x a IH]; simpl; [reflexivity | now rewrite IH]. Qed.

Lemma app_length_s (a b : string) :
  String.length (a +:+ b) = (String.length a + String.length b)%nat.
Proof. induction a as [|x a IH]; simpl; [reflexivity | now rewrite IH]. Qed.

Lemma strip_spec (w s r : string) : strip w s = Some r <-> s = w +:+ r.
Proof.
  revert s; induction w as [|a w IH]; intros s; simpl.
  - split; congruence.
  - destruct s as [|b s]; [split; discriminate |].
    destruct (Ascii.eqb_spec a b) as [-> | Hne].
    + rewrite IH. split; congruence.
    + split; [discriminate | intros [= E _]; congruence].
Qed.

Lemma strip_app (w r : string) : strip w (w +:+ r) = Some r.
Proof. now apply strip_spec. Qed.

Lemma startswith_spec (s w : string) :
  startswith s w = true <-> exists r, s = w +:+ r.
Proof.
  unfold startswith. destruct (strip w s) as [r|] eqn:E.
  - apply strip_spec in E. split; eauto.
  - split; [discriminate | intros [r Hr]]. apply strip_spec in Hr. congruence.
Qed.

Lemma contains_spec (sub s : string) : contains sub s = true <-> occurs sub s.
Proof.
  split.
  - induction s as [|c s IH]; simpl; rewrite orb_true_iff.
    + intros [H | H]; [| discriminate].
      apply startswith_spec in H as [r Hr]. now exists "", r.
    + intros [H | H].
      * apply startswith_spec in H as [r Hr]. now exists "", r.
      * destruct (IH H) as (pre & post & ->). now exists (String c pre), post.
  - intros (pre & post & ->). induction pre as [|c pre IH]; simpl.
    + assert (startswith (sub +:+ post) sub = true) as H
        by (apply startswith_spec; eauto).
      destruct (sub +:+ post); simpl; now rewrite H.
    + now rewrite IH, orb_true_r.
Qed.

Lemma contains_false (sub s : string) : contains sub s = false <-> ~ occurs sub s.
Proof.
  rewrite <- contains_spec. destruct (contains sub s); split; congruence.
Qed.

Lemma all_chars_app (p : ascii -> bool) (a b : string) :
  all_chars p (a +:+ b) = all_chars p a && all_chars p b.
Proof.
  induction a as [|x a IH]; simpl; [reflexivity |].
  now rewrite IH, andb_assoc.
Qed.

Lemma last_char_app (prev : option ascii) (a b : string) :
  last_char prev (a +:+ b) = last_char (last_char prev a) b.
Proof. revert prev; induction a as [|x a IH]; intros prev; simpl; auto. Qed.

Lemma last_char_cons (prev : option ascii) (c : ascii) (s : string) :
  last_char prev (String c s) = last_char (Some c) s.
Proof. reflexivity. Qed.

Lemma app_eq_nil_s (a b : string) : a +:+ b = "" -> a = "" /\ b = "".
Proof. destruct a; simpl; [auto | discriminate]. Qed.

Lemma app_inv_head_s (a b c : string) : a +:+ b = a +:+ c -> b = c.
Proof. induction a as [|x a IH]; simpl; [auto | intros [= H]; auto]. Qed.

(** Two ways of cutting the same text: the shorter head is a prefix of the
    longer one. *)
Lemma app_eq_app_s (a b c d : string) :
  a +:+ b = c +:+ d -> (String.length a <= String.length c)%nat ->
  exists m, c = a +:+ m /\ b = m +:+ d.
Proof.
  revert c; induction a as [|x a IH]; intros c H Hlen; simpl in *.
  - exists c. auto.
  - destruct c as [|y c]; simpl in *; [lia |].
    injection H as -> H. destruct (IH c H) as (m & -> & ->); [lia |].
    exists m. auto.
Qed.

(** ** Properties of the matcher *)

Lemma many_sound (p : ascii -> bool) (s u v : string) :
  In (u, v) (many p s) -> s = u +:+ v /\ all_chars p u = true.
Proof.
  revert u v; induction s as [|c s IH]; intros u v; simpl.
  - intros [[= <- <-] | []]. auto.
  - destruct (p c) eqn:Hc.
    + rewrite in_app_iff, in_map_iff.
      intros [((u' & v') & [= <- <-] & Hin) | [[= <- <-] | []]]; simpl; auto.
      destruct (IH _ _ Hin) as [-> Hu]. simpl. now rewrite Hc, Hu.
    + intros [[= <- <-] | []]. auto.
Qed.

Lemma many_complete (p : ascii -> bool) (u v : string) :
  all_chars p u = true -> In (u, v) (many p (u +:+ v)).
Proof.
  induction u as [|c u IH]; simpl.
  - intros _. destruct v as [|d v]; simpl; [auto |].
    destruct (p d); [apply in_or_app; right |]; simpl; auto.
  - rewrite andb_true_iff. intros [Hc Hu]. rewrite Hc.
    apply in_or_app; left. apply in_map_iff. exists (u, v). auto.
Qed.

Lemma many1_sound (p : ascii -> bool) (s u v : string) :
  In (u, v) (many1 p s) -> s = u +:+ v /\ all_chars p u = true /\ u <> "".
Proof.
  destruct s as [|c s]; simpl; [intros [] |].
  destruct (p c) eqn:Hc; [| intros []].
  rewrite in_map_iff. intros ((u' & v') & [= <- <-] & Hin).
  destruct (many_sound _ _ _ _ Hin) as [-> Hu]. simpl.
  now rewrite Hc, Hu.
Qed.

Lemma many1_complete (p : ascii -> bool) (u v : string) :
  all_chars p u = true -> u <> "" -> In (u, v) (many1 p (u +:+ v)).
Proof.
  destruct u as [|c u]; [congruence |]. simpl.
  rewrite andb_true_iff. intros [Hc Hu] _. rewrite Hc.
  apply in_map_iff. exists (u, v). split; [reflexivity |].
  now apply many_complete.
Qed.

(** Membership in the list of matches, construct by construct. *)
Lemma in_exec_Seq (r1 r2 : re) prev s h :
  In h (exec (Seq r1 r2) prev s) <->
  exists h1 h2,
    In h1 (exec r1 prev s)
    /\ In h2 (exec r2 (last_char prev (matched h1)) (rest h1))
    /\ h = Hit (matched h1 +:+ matched h2) (rest h2) (groups h1 ++ groups h2)%list.
Proof.
  simpl. rewrite in_flat_map. split.
  - intros (h1 & H1 & H). apply in_map_iff in H as (h2 & <- & H2). eauto.
  - intros (h1 & h2 & H1 & H2 & ->). exists h1. split; [assumption |].
    apply in_map_iff. eauto.
Qed.

Lemma in_exec_Alt (r1 r2 : re) prev s h :
  In h (exec (Alt r1 r2) prev s) <-> In h (exec r1 prev s) \/ In h (exec r2 prev s).
Proof. simpl. apply in_app_iff. Qed.

Lemma in_exec_Group (r : re) prev s h :
  In h (exec (Group r) prev s) <->
  exists h1, In h1 (exec r prev s)
             /\ h = Hit (matched h1) (rest h1) (matched h1 :: groups h1).
Proof.
  simpl. rewrite in_map_iff. split; intros (h1 & H); exists h1; intuition.
Qed.

Lemma in_exec_Opt (r : re) prev s h :
  In h (exec (Opt r) prev s) <-> In h (exec r prev s) \/ h = Hit "" s [].
Proof. simpl. rewrite in_app_iff. simpl. intuition. Qed.

Lemma in_exec_Lit (w : string) prev s h :
  In h (exec (Lit w) prev s) <-> exists s', s = w +:+ s' /\ h = Hit w s' [].
Proof.
  simpl. destruct (strip w s) as [s'|] eqn:E.
  - apply strip_spec in E. simpl. split.
    + intros [<- | []]. eauto.
    + intros (s'' & -> & ->). apply app_inv_head_s in E as ->. auto.
  - split; [intros [] | intros (s' & Hs & _)].
    apply strip_spec in Hs. congruence.
Qed.

Lemma in_exec_Cls (p : ascii -> bool) prev s h :
  In h (exec (Cls p) prev s) <->
  exists c s', s = String c s' /\ p c = true /\ h = Hit (String c "") s' [].
Proof.
  simpl. destruct s as [|c s]; [split; [intros [] | intros (? & ? & [=] & _)] |].
  destruct (p c) eqn:Hc; simpl; split.
  - intros [<- | []]. eauto.
  - intros (c' & s' & [= <- <-] & _ & ->). auto.
  - intros [].
  - intros (c' & s' & [= <- <-] & Hc' & _). congruence.
Qed.

Lemma in_exec_Star (p : ascii -> bool) prev s h :
  In h (exec (Star p) prev s) <->
  exists u v, s = u +:+ v /\ all_chars p u = true /\ h = Hit u v [].
Proof.
  simpl. rewrite in_map_iff. split.
  - intros ((u & v) & <- & Hin). apply many_sound in Hin as [-> Hu]. eauto.
  - intros (u & v & -> & Hu & ->). exists (u, v). split; [reflexivity |].
    now apply many_complete.
Qed.

Lemma in_exec_Plus (p : ascii -> bool) prev s h :
  In h (exec (Plus p) prev s) <->
  exists u v, s = u +:+ v /\ all_chars p u = true /\ u <> "" /\ h = Hit u v [].
Proof.
  simpl. rewrite in_map_iff. split.
  - intros ((u & v) & <- & Hin). apply many1_sound in Hin as (-> & Hu & Hne).
    exists u, v. auto.
  - intros (u & v & -> & Hu & Hne & ->). exists (u, v). split; [reflexivity |].
    now apply many1_complete.
Qed.

Lemma in_exec_WordB prev s h :
  In h (exec WordB prev s) <->
  word_boundary prev (first_char s) = true /\ h = Hit "" s [].
Proof.
  simpl. destruct (word_boundary prev (first_char s)); simpl; intuition congruence.
Qed.

(** A match consumes a prefix of the text. *)
Lemma exec_consumes (r : re) prev s h :
  In h (exec r prev s) -> s = matched h +:+ rest h.
Proof.
  revert prev s h; induction r; intros prev s h.
  - rewrite in_exec_Cls. intros (c & s' & -> & _ & ->). reflexivity.
  - rewrite in_exec_Lit. intros (s' & -> & ->). reflexivity.
  - rewrite in_exec_Seq. intros (h1 & h2 & H1 & H2 & ->). simpl.
    apply IHr1 in H1. apply IHr2 in H2. rewrite app_assoc_s. congruence.
  - rewrite in_exec_Alt. intros [H | H]; eauto.
  - rewrite in_exec_Star. intros (u & v & -> & _ & ->). reflexivity.
  - rewrite in_exec_Plus. intros (u & v & -> & _ & _ & ->). reflexivity.
  - rewrite in_exec_Opt. intros [H | ->]; eauto.
  - rewrite in_exec_Group. intros (h1 & H1 & ->). simpl. eauto.
  - rewrite in_exec_WordB. intros [_ ->]. reflexivity.
Qed.

(** [re.search] reports the head of the match list at the first position
    where that list is not empty. *)
Lemma search_from_Some (r : re) prev s h :
  search_from r prev s = Some h ->
  exists pre s' tl,
    s = pre +:+ s' /\ exec r (last_char prev pre) s' = h :: tl
    /\ forall pre' s'', s = pre' +:+ s'' ->
         (String.length pre' < String.length pre)%nat ->
         exec r (last_char prev pre') s'' = [].
Proof.
  revert prev; induction s as [|c s IH]; intros prev; simpl.
  - destruct (exec r prev "") as [|h0 tl] eqn:E; [discriminate |].
    intros [= ->]. exists "", "", tl. repeat split; auto.
    intros pre' s'' _ Hlen. simpl in Hlen. lia.
  - destruct (exec r prev (String c s)) as [|h0 tl] eqn:E.
    + intros H. destruct (IH _ H) as (pre & s' & tl & -> & Hex & Hmin).
      exists (String c pre), s', tl. repeat split; auto.
      intros pre' s'' Heq Hlen. destruct pre' as [|c' pre']; simpl in *.
      * now subst s''.
      * injection Heq as <- Heq. apply Hmin; [assumption | lia].
    + intros [= ->]. exists "", (String c s), tl. repeat split; auto.
      intros pre' s'' _ Hlen. simpl in Hlen. lia.
Qed.

Lemma search_from_None (r : re) prev s :
  search_from r prev s = None ->
  forall pre s', s = pre +:+ s' -> exec r (last_char prev pre) s' = [].
Proof.
  revert prev; induction s as [|c s IH]; intros prev; simpl.
  - destruct (exec r prev "") eqn:E; [| discriminate].
    intros _ pre s' H. symmetry in H. apply app_eq_nil_s in H as [-> ->].
    assumption.
  - destruct (exec r prev (String c s)) eqn:E; [| discriminate].
    intros H pre s' Heq. destruct pre as [|c' pre]; simpl in *.
    + now subst s'.
    + injection Heq as <- Heq. now apply IH.
Qed.

Lemma in_exec_alts (r : re) (rs : list re) prev s h :
  In h (exec (alts r rs) prev s) <->
  In h (exec r prev s) \/ exists r', In r' rs /\ In h (exec r' prev s).
Proof.
  revert r; induction rs as [|r1 rs IH]; intros r.
  - simpl. split; [auto | intros [H | (r' & [] & _)]; exact H].
  - change (alts r (r1 :: rs)) with (Alt r (alts r1 rs)).
    rewrite in_exec_Alt, IH. split.
    + intros [H | [H | (r' & Hr' & H)]]; auto.
      * right. exists r1. simpl; auto.
      * right. exists r'. simpl; auto.
    + intros [H | (r' & [<- | Hr'] & H)]; eauto.
Qed.

(** The matcher on texts where backtracking and the scan order show. *)
Example findall_backtracks :
  findall brand_re "Show X sales Acme- A& Ab-_ Show-Acme iPhone AT&T's"
  = ["Show"; "Acme"; "Ab-"; "Show-Acme"; "AT&T's"].
Proof. vm_compute. reflexivity. Qed.

Example search_leftmost :
  groups <$> search time_window_re "in 2 days, three months"
  = Some ["2"; "day"].
Proof. vm_compute. reflexivity. Qed.

Example search_inside_word :
  groups <$> search time_window_re "twenty-one days" = Some ["one"; "day"]
  /\ search time_window_re "nineteen days" = None.
Proof. split; vm_compute; reflexivity. Qed.

(** *** The two patterns of the server *)

Lemma quantity_re_eq :
  quantity_re = Group (alts (Plus is_digit) (map Lit number_word_list)).
Proof. reflexivity. Qed.

Lemma unit_re_eq :
  unit_re = Group (alts (Lit "day") (map Lit ["week"; "month"; "year"])).
Proof. reflexivity. Qed.

Lemma in_exec_quantity prev s h :
  In h (exec quantity_re prev s) <->
  exists q s', s = q +:+ s' /\ quantity_token q /\ h = Hit q s' [q].
Proof.
  rewrite quantity_re_eq, in_exec_Group. split.
  - intros (h1 & H1 & ->). apply in_exec_alts in H1 as [H1 | (r' & Hr' & H1)].
    + apply in_exec_Plus in H1 as (u & v & -> & Hu & Hne & ->).
      exists u, v. repeat split; auto. left. auto.
    + apply in_map_iff in Hr' as (w & <- & Hw).
      apply in_exec_Lit in H1 as (s' & -> & ->).
      exists w, s'. repeat split; auto. right. auto.
  - intros (q & s' & -> & [[Hne Hq] | Hq] & ->).
    + exists (Hit q s' []). split; [| reflexivity].
      apply in_exec_alts. left. apply in_exec_Plus. exists q, s'. auto.
    + exists (Hit q s' []). split; [| reflexivity].
      apply in_exec_alts. right. exists (Lit q). split.
      * now apply in_map.
      * apply in_exec_Lit. eauto.
Qed.

Lemma in_exec_unit prev s h :
  In h (exec unit_re prev s) <->
  exists u s', s = u +:+ s' /\ In u unit_list /\ h = Hit u s' [u].
Proof.
  rewrite unit_re_eq, in_exec_Group. split.
  - intros (h1 & H1 & ->). apply in_exec_alts in H1 as [H1 | (r' & Hr' & H1)].
    + apply in_exec_Lit in H1 as (s' & -> & ->).
      exists "day", s'. repeat split; auto. simpl; auto.
    + apply in_map_iff in Hr' as (w & <- & Hw).
      apply in_exec_Lit in H1 as (s' & -> & ->).
      exists w, s'. repeat split; auto. simpl in *; tauto.
  - intros (u & s' & -> & Hu & ->).
    exists (Hit u s' []). split; [| reflexivity].
    apply in_exec_alts. destruct Hu as [<- | Hu].
    + left. apply in_exec_Lit. eauto.
    + right. exists (Lit u). split; [now apply in_map |].
      apply in_exec_Lit. eauto.
Qed.

(** Every match of the time pattern has a quantity and a unit in its groups. *)
Lemma exec_time_sound prev s h :
  In h (exec time_window_re prev s) ->
  exists q u, groups h = [q; u] /\ quantity_unit_at s q u.
Proof.
  unfold time_window_re. rewrite in_exec_Seq.
  intros (h1 & h2 & H1 & H2 & ->).
  apply in_exec_quantity in H1 as (q & s1 & -> & Hq & ->). cbn [matched rest] in H2.
  apply in_exec_Seq in H2 as (h3 & h4 & H3 & H4 & ->).
  apply in_exec_Star in H3 as (sep & s2 & -> & Hsep & ->). cbn [matched rest] in H4.
  apply in_exec_Seq in H4 as (h5 & h6 & H5 & H6 & ->).
  apply in_exec_unit in H5 as (u & s3 & -> & Hu & ->). cbn [matched rest] in H6.
  assert (groups h6 = []) as Hg.
  { apply in_exec_Opt in H6 as [H6 | ->]; [| reflexivity].
    apply in_exec_Lit in H6 as (s4 & _ & ->). reflexivity. }
  exists q, u. split; [cbn [groups]; now rewrite Hg |].
  exists sep, s3. auto.
Qed.

(** Wherever a quantity and a unit stand, the time pattern matches. *)
Lemma exec_time_complete prev s q u :
  quantity_unit_at s q u -> exec time_window_re prev s <> [].
Proof.
  intros (sep & tail & -> & Hq & Hsep & Hu).
  assert (In (Hit (q +:+ sep +:+ u +:+ "") tail ([q] ++ [] ++ [u] ++ []))
             (exec time_window_re prev (q +:+ sep +:+ u +:+ tail))) as Hin.
  { unfold time_window_re. apply in_exec_Seq.
    exists (Hit q (sep +:+ u +:+ tail) [q]),
           (Hit (sep +:+ u +:+ "") tail ([] ++ [u] ++ [])).
    split; [apply in_exec_quantity; eauto |].
    split; [| reflexivity]. cbn [matched rest].
    apply in_exec_Seq.
    exists (Hit sep (u +:+ tail) []), (Hit (u +:+ "") tail ([u] ++ [])).
    split; [apply in_exec_Star; eauto |].
    split; [| reflexivity]. cbn [matched rest].
    apply in_exec_Seq.
    exists (Hit u tail [u]), (Hit "" tail []).
    split; [apply in_exec_unit; eauto |].
    split; [| reflexivity]. cbn [matched rest].
    apply in_exec_Opt. auto. }
  intros E. rewrite E in Hin. exact Hin.
Qed.

(** *** Quantities and units *)

Lemma all_chars_impl (p q : ascii -> bool) (s : string) :
  (forall c, p c = true -> q c = true) ->
  all_chars p s = true -> all_chars q s = true.
Proof.
  intros Hpq. induction s as [|c s IH]; simpl; [auto |].
  rewrite !andb_true_iff. intros [Hc Hs]. auto.
Qed.

Lemma number_word_value (q : string) :
  In q number_word_list ->
  isdigit q = false /\ all_chars is_digit q = false
  /\ (String.length q <= int_max_str_digits)%nat
  /\ exists n, number_words !! q = Some n /\ (1 <= n <= 12)%Z.
Proof.
  intros Hq. simpl in Hq.
  repeat (destruct Hq as [<- | Hq];
          [repeat split; try reflexivity;
           [unfold int_max_str_digits; simpl String.length; lia
           | eexists; split; [vm_compute; reflexivity | lia]] |]).
  destruct Hq.
Qed.

Lemma digit_value_bounds (c : ascii) :
  is_09 c = true -> (0 <= digit_value c <= 9)%Z.
Proof.
  unfold is_09, between, digit_value. rewrite andb_true_iff.
  intros [H1 H2]. apply N.leb_le in H1, H2. lia.
Qed.

Lemma decimal_value_nonneg (s : string) (acc : Z) :
  (0 <= acc)%Z -> all_chars is_09 s = true -> (0 <= decimal_value acc s)%Z.
Proof.
  revert acc; induction s as [|c s IH]; intros acc Hacc; simpl; [auto |].
  rewrite andb_true_iff. intros [Hc Hs]. apply IH; [| assumption].
  apply digit_value_bounds in Hc. lia.
Qed.

Lemma eqb_empty (s : string) : (s =? "") = false <-> s <> "".
Proof. destruct s; simpl; split; congruence. Qed.

(** A quantity token within the digit limit evaluates to its value. *)
Lemma quantity_of_token (q : string) :
  quantity_token q -> (String.length q <= int_max_str_digits)%nat ->
  quantity_of q = Ok (quantity_value q) /\ (0 <= quantity_value q)%Z.
Proof.
  intros [[Hne Hq] | Hq] Hlen.
  - unfold quantity_of, quantity_value, isdigit, py_int. rewrite Hq.
    apply eqb_empty in Hne. rewrite Hne. simpl.
    rewrite (all_chars_impl is_digit isdigit_char)
      by (assumption
          || (intros c Hc; unfold isdigit_char; unfold is_digit in Hc;
              now rewrite Hc)).
    change (all_chars is_09 q = true) in Hq. rewrite Hq.
    apply Nat.ltb_ge in Hlen. rewrite Hlen.
    split; [reflexivity | now apply decimal_value_nonneg].
  - destruct (number_word_value q Hq) as (Hd & Hc & _ & n & Hn & Hrange).
    unfold quantity_of, quantity_value. rewrite Hd, Hc, Hn. simpl.
    split; [reflexivity | lia].
Qed.


Lemma delta_of_unit (n : Z) (u : string) :
  In u unit_list -> delta_of n u = timedelta (days_per_unit u * n).
Proof.
  intros Hu. simpl in Hu.
  destruct Hu as [<- | [<- | [<- | [<- | []]]]];
    unfold delta_of; simpl; try reflexivity.
  now rewrite Z.mul_1_l.
Qed.

Lemma days_per_unit_pos (u : string) : (1 <= days_per_unit u <= 365)%Z.
Proof.
  unfold days_per_unit.
  destruct (u =? "day"); [lia |].
  destruct (u =? "week"); [lia |].
  destruct (u =? "month"); lia.
Qed.

(** *** A quantity and unit standing at a position are determined by it *)

Lemma run_unique (p : ascii -> bool) (a b a' b' : string) :
  a +:+ b = a' +:+ b' ->
  all_chars p a = true -> all_chars p a' = true ->
  starts_outside p b -> starts_outside p b' -> a = a' /\ b = b'.
Proof.
  assert (forall a b a' b' : string,
             a +:+ b = a' +:+ b' -> all_chars p a' = true ->
             starts_outside p b ->
             (String.length a <= String.length a')%nat -> a = a' /\ b = b')
    as Hle.
  { clear. intros a b a' b' H Ha' Hb Hlen.
    destruct (app_eq_app_s _ _ _ _ H Hlen) as (m & -> & ->).
    destruct m as [|c m].
    - rewrite app_nil_r_s. auto.
    - rewrite all_chars_app in Ha'. simpl in Ha'.
      rewrite (Hb c (m +:+ b') eq_refl) in Ha'.
      rewrite andb_false_r in Ha'. discriminate. }
  intros H Ha Ha' Hb Hb'.
  destruct (Nat.le_ge_cases (String.length a) (String.length a')) as [Hl | Hl].
  - eapply Hle; eauto.
  - symmetry in H. destruct (Hle _ _ _ _ H Ha Hb' Hl). auto.
Qed.

Lemma prefix_free (l : list string) (a b a' b' : string) :
  prefix_free_check l = true -> In a l -> In a' l ->
  a +:+ b = a' +:+ b' -> a = a' /\ b = b'.
Proof.
  intros Hchk.
  assert (forall a b a' b' : string,
             In a l -> In a' l -> a +:+ b = a' +:+ b' ->
             (String.length a <= String.length a')%nat -> a = a' /\ b = b')
    as Hle.
  { intros a0 b0 a1 b1 H0 H1 H Hlen.
    destruct (app_eq_app_s _ _ _ _ H Hlen) as (m & -> & ->).
    unfold prefix_free_check in Hchk. rewrite forallb_forall in Hchk.
    specialize (Hchk _ H0). rewrite forallb_forall in Hchk.
    specialize (Hchk _ H1). rewrite strip_app in Hchk.
    destruct m; [| discriminate]. rewrite app_nil_r_s. auto. }
  intros Ha Ha' H.
  destruct (Nat.le_ge_cases (String.length a) (String.length a')) as [Hl | Hl].
  - eapply Hle; eauto.
  - symmetry in H. destruct (Hle _ _ _ _ Ha' Ha H Hl). auto.
Qed.

Lemma sep_char_not_digit (c : ascii) : sep_char c = true -> is_digit c = false.
Proof.
  destruct c as [[] [] [] [] [] [] [] []]; vm_compute; congruence.
Qed.

Lemma unit_first_char (u : string) :
  In u unit_list ->
  exists c r, u = String c r /\ sep_char c = false /\ is_digit c = false.
Proof.
  intros Hu. simpl in Hu.
  destruct Hu as [<- | [<- | [<- | [<- | []]]]]; eexists _, _; repeat split.
Qed.

Lemma number_word_first_char (q : string) :
  In q number_word_list -> exists c r, q = String c r /\ is_digit c = false.
Proof.
  intros Hq. simpl in Hq.
  repeat (destruct Hq as [<- | Hq]; [eexists _, _; repeat split |]).
  destruct Hq.
Qed.

Lemma quantity_unit_at_unique (s q u q' u' : string) :
  quantity_unit_at s q u -> quantity_unit_at s q' u' -> q = q' /\ u = u'.
Proof.
  intros (sep & tail & Hs & Hq & Hsep & Hu)
         (sep' & tail' & Hs' & Hq' & Hsep' & Hu').
  assert (forall sep u tail, all_chars sep_char sep = true -> In u unit_list ->
            starts_outside is_digit (sep +:+ u +:+ tail)) as Hout.
  { clear. intros sep u tail Hsep Hu c r.
    destruct (unit_first_char u Hu) as (d & r' & -> & _ & Hd).
    destruct sep as [|e sep]; simpl; intros [= <- _]; [assumption |].
    simpl in Hsep. apply andb_true_iff in Hsep as [He _].
    now apply sep_char_not_digit. }
  assert (forall u tail, In u unit_list -> starts_outside sep_char (u +:+ tail))
    as Hout'.
  { clear. intros u tail Hu c r.
    destruct (unit_first_char u Hu) as (d & r' & -> & Hd & _).
    simpl. now intros [= <- _]. }
  assert (q = q' /\ sep +:+ u +:+ tail = sep' +:+ u' +:+ tail') as [<- Hrest].
  { rewrite Hs in Hs'.
    destruct Hq as [[Hne Hq] | Hq], Hq' as [[Hne' Hq'] | Hq'].
    - eapply run_unique; eauto.
    - exfalso. destruct (number_word_first_char _ Hq') as (c & r & -> & Hc).
      destruct q as [|d q]; [congruence |]. simpl in Hs', Hq.
      injection Hs' as -> _. rewrite Hc in Hq. discriminate.
    - exfalso. destruct (number_word_first_char _ Hq) as (c & r & -> & Hc).
      destruct q' as [|d q']; [congruence |]. simpl in Hs', Hq'.
      injection Hs' as -> _. rewrite Hc in Hq'. discriminate.
    - eapply (prefix_free number_word_list); eauto. }
  split; [reflexivity |].
  destruct (run_unique sep_char _ _ _ _ Hrest) as [<- Hrest']; auto.
  now destruct (prefix_free unit_list u tail u' tail').
Qed.

(** *** Where the server looks for a quantity and a unit *)

Lemma quantity_unit_search (text : string) :
  match search time_window_re text with
  | Some m => exists q u, groups m = [q; u] /\ leftmost_quantity_unit text q u
  | None => no_quantity_unit text
  end.
Proof.
  unfold search. destruct (search_from time_window_re None text) as [m|] eqn:E.
  - apply search_from_Some in E as (pre & s' & tl & -> & Hex & Hmin).
    assert (In m (exec time_window_re (last_char None pre) s')) as Hin
      by (rewrite Hex; simpl; auto).
    apply exec_time_sound in Hin as (q & u & Hg & Hat).
    exists q, u. split; [assumption |].
    exists pre, s'. repeat split; auto.
    intros pre' s'' q' u' Heq Hlen Hat'.
    eapply exec_time_complete; eauto.
  - intros pre s q u Heq Hat.
    eapply exec_time_complete; [eassumption |].
    eapply search_from_None; eauto.
Qed.

Lemma leftmost_quantity_unit_unique (text q u q' u' : string) :
  leftmost_quantity_unit text q u -> leftmost_quantity_unit text q' u' ->
  q = q' /\ u = u'.
Proof.
  intros (pre & s & Heq & Hat & Hmin) (pre' & s' & Heq' & Hat' & Hmin').
  destruct (Nat.lt_trichotomy (String.length pre) (String.length pre'))
    as [Hlt | [He | Hlt]].
  - exfalso. exact (Hmin' pre s q u Heq Hlt Hat).
  - assert (pre = pre' /\ s = s') as [<- <-].
    { rewrite Heq in Heq'.
      destruct (app_eq_app_s _ _ _ _ Heq') as (m & -> & ->); [lia |].
      rewrite app_length_s in He. destruct m; simpl in He; [| lia].
      rewrite app_nil_r_s. auto. }
    eapply quantity_unit_at_unique; eauto.
  - exfalso. exact (Hmin pre' s' q' u' Heq' Hlt Hat').
Qed.

Lemma leftmost_excludes_none (text q u : string) :
  leftmost_quantity_unit text q u -> ~ no_quantity_unit text.
Proof. intros (pre & s & Heq & Hat & _) Hno. eapply Hno; eauto. Qed.

(** The first chain of [_extract_time_window], case by case. *)
Lemma find_quantity_unit_leftmost (text q u : string) :
  leftmost_quantity_unit text q u ->
  find_quantity_unit text
  = rbind (quantity_of q) (fun quantity => Ok (Some (quantity, u))).
Proof.
  intros Hl. unfold find_quantity_unit.
  pose proof (quantity_unit_search text) as Hs.
  destruct (search time_window_re text) as [m|].
  - destruct Hs as (q' & u' & -> & Hl').
    destruct (leftmost_quantity_unit_unique _ _ _ _ _ Hl Hl') as [<- <-].
    reflexivity.
  - exfalso. eapply leftmost_excludes_none; eauto.
Qed.

Lemma find_quantity_unit_none (text : string) :
  no_quantity_unit text ->
  find_quantity_unit text
  = if contains "last year" text then Ok (Some (1%Z, "year"))
    else if contains "last month" text then Ok (Some (1%Z, "month"))
    else if contains "last week" text then Ok (Some (1%Z, "week"))
    else Ok None.
Proof.
  intros Hno. unfold find_quantity_unit.
  pose proof (quantity_unit_search text) as Hs.
  destruct (search time_window_re text) as [m|]; [| reflexivity].
  destruct Hs as (q & u & _ & Hl).
  exfalso. eapply leftmost_excludes_none; eauto.
Qed.

Lemma quantity_unit_dichotomy (text : string) :
  (exists q u, leftmost_quantity_unit text q u) \/ no_quantity_unit text.
Proof.
  pose proof (quantity_unit_search text) as Hs.
  destruct (search time_window_re text) as [m|]; [left | right; assumption].
  destruct Hs as (q & u & _ & Hl). eauto.
Qed.

(** ** Properties of the calendar *)

Example strftime_samples :
  map strftime_Ymd
    [1; 59; 60; 3653; 36525; 364877; 364878; 730179; 730180; 739923;
     3652059]%Z
  = ["1-01-01"; "1-02-28"; "1-03-01"; "11-01-01"; "101-01-01"; "999-12-31";
     "1000-01-01"; "2000-02-29"; "2000-03-01"; "2026-11-03"; "9999-12-31"].
Proof. vm_compute. reflexivity. Qed.








(** ** Properties of [_extract_time_window] *)

(** The second chain and the subtraction: a window, unless the start would
    fall before 0001-01-01. *)
Lemma window_of_quantity (now n : Z) (u : string) :
  valid_ordinal now -> In u unit_list -> (0 <= n)%Z ->
  rbind (delta_of n u) (fun delta =>
    rbind (sub now delta) (fun start =>
      Ok ({[ "start_date" := strftime_Ymd start;
             "end_date" := strftime_Ymd now ]} : gmap string string)))
  = if (1 <=? now - days_per_unit u * n)%Z
    then Ok (window (now - days_per_unit u * n) now)
    else Raise OverflowError.
Proof.
  unfold valid_ordinal, _MAXORDINAL. intros Hnow Hu Hn.
  rewrite (delta_of_unit _ _ Hu).
  pose proof (days_per_unit_pos u) as Hk.
  set (d := (days_per_unit u * n)%Z).
  assert (0 <= d)%Z as Hd by (unfold d; nia).
  unfold timedelta, sub, _MAXORDINAL. rewrite Z.abs_eq by assumption.
  destruct (d <=? 999999999)%Z eqn:E1; simpl.
  - destruct (1 <=? now - d)%Z eqn:E2; simpl; [| reflexivity].
    assert ((now - d <=? 3652059)%Z = true) as -> by (apply Z.leb_le; lia).
    reflexivity.
  - apply Z.leb_gt in E1.
    assert ((1 <=? now - d)%Z = false) as -> by (apply Z.leb_gt; lia).
    reflexivity.
Qed.


Lemma quantity_of_Raise (q : string) (e : exn) :
  quantity_of q = Raise e -> exists msg, e = ValueError msg.
Proof.
  unfold quantity_of, py_int.
  destruct (isdigit q); [| discriminate].
  destruct (negb (q =? "") && all_chars is_09 q);
    [destruct (int_max_str_digits <? String.length q)%nat |];
    intros [= <-]; eauto.
Qed.

Lemma find_quantity_unit_Raise (text : string) (e : exn) :
  find_quantity_unit text = Raise e -> exists msg, e = ValueError msg.
Proof.
  destruct (quantity_unit_dichotomy text) as [(q & u' & Hl) | Hno].
  - rewrite (find_quantity_unit_leftmost _ _ _ Hl).
    destruct (quantity_of q) as [k|e'] eqn:E; simpl; [discriminate |].
    intros [= <-]. eapply quantity_of_Raise; eauto.
  - rewrite (find_quantity_unit_none _ Hno).
    destruct (contains "last year" text); [discriminate |].
    destruct (contains "last month" text); [discriminate |].
    destruct (contains "last week" text); discriminate.
Qed.

Lemma leftmost_from_search (text : string) (m : hit) (q u : string) :
  search time_window_re text = Some m -> groups m = [q; u] ->
  leftmost_quantity_unit text q u.
Proof.
  intros E Hg. pose proof (quantity_unit_search text) as Hs.
  rewrite E in Hs. destruct Hs as (q' & u' & Hg' & Hl).
  rewrite Hg in Hg'. now injection Hg' as <- <-.
Qed.

Lemma no_quantity_unit_from_search (text : string) :
  search time_window_re text = None -> no_quantity_unit text.
Proof.
  intros E. pose proof (quantity_unit_search text) as Hs. now rewrite E in Hs.
Qed.

Lemma extract_time_window_leftmost (now : Z) (text q u : string) :
  valid_ordinal now ->
  leftmost_quantity_unit (lower text) q u ->
  (String.length q <= int_max_str_digits)%nat ->
  _extract_time_window now text
  = if (1 <=? now - days_per_unit u * quantity_value q)%Z
    then Ok (window (now - days_per_unit u * quantity_value q) now)
    else Raise OverflowError.
Proof.
  intros Hnow Hl Hlen. unfold _extract_time_window.
  rewrite (find_quantity_unit_leftmost _ _ _ Hl).
  destruct Hl as (_ & s & _ & (sep & tail & _ & Hq & _ & Hu) & _).
  destruct (quantity_of_token q Hq Hlen) as [-> Hn]. simpl.
  now apply window_of_quantity.
Qed.

Lemma extract_time_window_phrase (now : Z) (text : string) :
  valid_ordinal now ->
  no_quantity_unit (lower text) ->
  _extract_time_window now text
  = if contains "last year" (lower text) then
      if (1 <=? now - 365)%Z then Ok (window (now - 365) now)
      else Raise OverflowError
    else if contains "last month" (lower text) then
      if (1 <=? now - 30)%Z then Ok (window (now - 30) now)
      else Raise OverflowError
    else if contains "last week" (lower text) then
      if (1 <=? now - 7)%Z then Ok (window (now - 7) now)
      else Raise OverflowError
    else Ok ∅.
Proof.
  intros Hnow Hno. unfold _extract_time_window.
  rewrite (find_quantity_unit_none _ Hno).
  destruct (contains "last year" (lower text)).
  { cbn [rbind].
    rewrite window_of_quantity by (assumption || (simpl; tauto) || lia).
    reflexivity. }
  destruct (contains "last month" (lower text)).
  { cbn [rbind].
    rewrite window_of_quantity by (assumption || (simpl; tauto) || lia).
    reflexivity. }
  destruct (contains "last week" (lower text)).
  { cbn [rbind].
    rewrite window_of_quantity by (assumption || (simpl; tauto) || lia).
    reflexivity. }
  reflexivity.
Qed.

(** C6, as amended.  With the text lower-cased, [_extract_time_window]
    first looks for the leftmost quantity (a digit sequence or a number word
    one..twelve) followed by optional hyphens or blanks and a unit (day,
    week, month, year); failing that it falls back to the phrases "last
    year", "last month", "last week", in that order; otherwise it returns no
    window.  When a window is found and its start is a date the calendar
    has (not before 0001-01-01, the digit sequence within the interpreter's
    limit), the window is (now - delta, now) with delta = quantity days for
    day, 7 x quantity for week, 30 x quantity for month and 365 x quantity
    for year.  So a text whose leftmost quantity and unit are "three" and
    "month" yields (now - 90 days, now), "sales for the last three months"
    among them, and "hello world" yields no window. *)
Theorem extract_time_window_delta (now : Z) (text : string) :
  valid_ordinal now ->
  let t := lower text in
  ((exists q u, leftmost_quantity_unit t q u) \/ no_quantity_unit t)
  /\ (forall q u,
        leftmost_quantity_unit t q u ->
        (String.length q <= int_max_str_digits)%nat ->
        (1 <= now - days_per_unit u * quantity_value q)%Z ->
        _extract_time_window now text
        = Ok (window (now - days_per_unit u * quantity_value q) now))
  /\ (no_quantity_unit t -> occurs "last year" t -> (1 <= now - 365)%Z ->
      _extract_time_window now text = Ok (window (now - 365) now))
  /\ (no_quantity_unit t -> ~ occurs "last year" t -> occurs "last month" t ->
      (1 <= now - 30)%Z ->
      _extract_time_window now text = Ok (window (now - 30) now))
  /\ (no_quantity_unit t -> ~ occurs "last year" t -> ~ occurs "last month" t ->
      occurs "last week" t -> (1 <= now - 7)%Z ->
      _extract_time_window now text = Ok (window (now - 7) now))
  /\ (no_quantity_unit t -> ~ occurs "last year" t -> ~ occurs "last month" t ->
      ~ occurs "last week" t ->
      _extract_time_window now text = Ok ∅)
  /\ (leftmost_quantity_unit t "three" "month" -> (1 <= now - 90)%Z ->
      _extract_time_window now text = Ok (window (now - 90) now))
  /\ ((1 <= now - 90)%Z ->
      _extract_time_window now "sales for the last three months"
      = Ok (window (now - 90) now))
  /\ _extract_time_window now "hello world" = Ok ∅.
Proof.
  intros Hnow t.
  assert (forall q u,
        leftmost_quantity_unit t q u ->
        (String.length q <= int_max_str_digits)%nat ->
        (1 <= now - days_per_unit u * quantity_value q)%Z ->
        _extract_time_window now text
        = Ok (window (now - days_per_unit u * quantity_value q) now)) as Hleft.
  { intros q u Hl Hlen Hr.
    rewrite (extract_time_window_leftmost now text q u) by assumption.
    apply Z.leb_le in Hr. now rewrite Hr. }
  split; [apply quantity_unit_dichotomy |].
  split; [exact Hleft |].
  refine (conj _ (conj _ (conj _ (conj _ (conj _ (conj _ _)))))).
  - intros Hno Hy Hr. rewrite extract_time_window_phrase by assumption.
    apply contains_spec in Hy. fold t. rewrite Hy.
    apply Z.leb_le in Hr. now rewrite Hr.
  - intros Hno Hy Hm Hr. rewrite extract_time_window_phrase by assumption.
    apply contains_false in Hy. apply contains_spec in Hm. fold t.
    rewrite Hy, Hm. apply Z.leb_le in Hr. now rewrite Hr.
  - intros Hno Hy Hm Hw Hr. rewrite extract_time_window_phrase by assumption.
    apply contains_false in Hy, Hm. apply contains_spec in Hw. fold t.
    rewrite Hy, Hm, Hw. apply Z.leb_le in Hr. now rewrite Hr.
  - intros Hno Hy Hm Hw. rewrite extract_time_window_phrase by assumption.
    apply contains_false in Hy, Hm, Hw. fold t. now rewrite Hy, Hm, Hw.
  - intros Hl Hr. apply (Hleft "three" "month" Hl).
    + unfold int_max_str_digits. simpl. lia.
    + exact Hr.
  - intros Hr.
    rewrite (extract_time_window_leftmost now _ "three" "month"); try assumption.
    + change (days_per_unit "month" * quantity_value "three")%Z with 90%Z.
      apply Z.leb_le in Hr. now rewrite Hr.
    + eapply leftmost_from_search; [vm_compute; reflexivity | reflexivity].
    + unfold int_max_str_digits. simpl. lia.
  - rewrite extract_time_window_phrase; [reflexivity | assumption |].
    apply no_quantity_unit_from_search. vm_compute. reflexivity.
Qed.

Lemma extract_time_window_delta_witness :
  valid_ordinal 739923
  /\ _extract_time_window 739923 "Show TechCo sales last 2 weeks"
     = Ok (window (739923 - 14) 739923).
Proof.
  assert (valid_ordinal 739923) as Hnow
    by (unfold valid_ordinal, _MAXORDINAL; lia).
  split; [exact Hnow |].
  destruct (extract_time_window_delta 739923 "Show TechCo sales last 2 weeks" Hnow)
    as (_ & H & _).
  apply (H "2" "week").
  - eapply leftmost_from_search; [vm_compute; reflexivity | reflexivity].
  - unfold int_max_str_digits. simpl. lia.
  - vm_compute. discriminate.
Defined.

(** C6 as stated fails twice over.  A window whose start would precede
    0001-01-01 is not returned: the subtraction raises.  And a text
    containing "three months" after an earlier quantity and unit gets the
    earlier one. *)
Lemma extract_time_window_delta_counterexample :
  (leftmost_quantity_unit (lower "sales last 5000 years") "5000" "year"
   /\ _extract_time_window 739923 "sales last 5000 years" = Raise OverflowError)
  /\ (occurs "three months" (lower "in 2 days, three months")
      /\ _extract_time_window 739923 "in 2 days, three months"
         = Ok (window (739923 - 2) 739923)
      /\ window (739923 - 2) 739923 <> window (739923 - 90) 739923).
Proof.
  split; [split | split; [| split]].
  - eapply leftmost_from_search; [vm_compute; reflexivity | reflexivity].
  - vm_compute. reflexivity.
  - exists "in 2 days, ", "". reflexivity.
  - vm_compute. reflexivity.
  - intros H. apply (f_equal (fun d : gmap string string => d !! "start_date")) in H.
    vm_compute in H. discriminate H.
Qed.





(** ** Properties of [_extract_brand] *)

Lemma first_brand_Some (candidates : list string) (b : string) :
  first_brand candidates = Some b ->
  exists skipped more,
    candidates = (skipped ++ b :: more)%list
    /\ Forall (fun c => is_stopword (lower c) = true) skipped
    /\ is_stopword (lower b) = false.
Proof.
  induction candidates as [|c l IH]; simpl; [discriminate |].
  destruct (is_stopword (lower c)) eqn:E.
  - intros H. destruct (IH H) as (skipped & more & -> & Hs & Hb).
    exists (c :: skipped), more. auto.
  - intros [= ->]. exists [], l. auto.
Qed.

Lemma first_brand_None (candidates : list string) :
  first_brand candidates = None ->
  Forall (fun c => is_stopword (lower c) = true) candidates.
Proof.
  induction candidates as [|c l IH]; simpl; [constructor |].
  destruct (is_stopword (lower c)) eqn:E; [auto | discriminate].
Qed.

Lemma is_stopword_spec (word : string) :
  is_stopword word = true <-> In word brand_stopwords.
Proof.
  unfold is_stopword. rewrite existsb_exists. split.
  - intros (x & Hx & E). apply String.eqb_eq in E. now subst.
  - intros H. exists word. split; [assumption | apply String.eqb_refl].
Qed.

(** C8.  Whenever [_extract_brand] returns a value, its lower-cased form is
    none of "show", "get", "sales", "inventory", "stock". *)
Theorem extract_brand_not_stopword (text b : string) :
  _extract_brand text = Some b ->
  ~ In (lower b) ["show"; "get"; "sales"; "inventory"; "stock"].
Proof.
  unfold _extract_brand. intros H.
  apply first_brand_Some in H as (_ & _ & _ & _ & Hb).
  change ["show"; "get"; "sales"; "inventory"; "stock"] with brand_stopwords.
  rewrite <- is_stopword_spec. congruence.
Qed.

Lemma extract_brand_not_stopword_witness :
  _extract_brand "Show TechCo sales last 2 weeks" = Some "TechCo"
  /\ ~ In (lower "TechCo") ["show"; "get"; "sales"; "inventory"; "stock"].
Proof.
  assert (_extract_brand "Show TechCo sales last 2 weeks" = Some "TechCo") as H
    by (vm_compute; reflexivity).
  split; [exact H |].
  exact (extract_brand_not_stopword "Show TechCo sales last 2 weeks" "TechCo" H).
Defined.

(** *** Matches of the brand pattern *)

Lemma first_char_app (a b : string) :
  a <> "" -> first_char (a +:+ b) = first_char a.
Proof. destruct a; [congruence | reflexivity]. Qed.

Lemma brand_token_nonempty (t : string) : brand_token t -> t <> "".
Proof. intros (c & tl & -> & _). discriminate. Qed.

Lemma in_exec_brand prev s h :
  In h (exec brand_re prev s) <->
  exists t post,
    s = t +:+ post /\ brand_token t /\ delimited prev t post
    /\ h = Hit t post [t].
Proof.
  unfold brand_re. rewrite in_exec_Seq. split.
  - intros (h1 & h2 & H1 & H2 & ->).
    apply in_exec_WordB in H1 as [Hb ->]. cbn [matched rest groups] in *.
    apply in_exec_Seq in H2 as (h3 & h4 & H3 & H4 & ->).
    apply in_exec_Group in H3 as (h5 & H5 & ->). cbn [matched rest groups] in *.
    apply in_exec_Seq in H5 as (h6 & h7 & H6 & H7 & ->).
    apply in_exec_Cls in H6 as (c & s1 & -> & Hc & ->).
    cbn [matched rest groups] in *.
    apply in_exec_Plus in H7 as (u & v & -> & Hu & Hne & ->).
    cbn [matched rest groups] in *.
    apply in_exec_WordB in H4 as [He ->]. cbn [matched rest groups].
    exists (String c u), v. simpl. rewrite app_nil_r_s.
    repeat split; auto.
    exists c, u. auto.
  - intros (t & post & -> & (c & u & -> & Hc & Hne & Hu) & [Hb He] & ->).
    exists (Hit "" (String c u +:+ post) []),
           (Hit (String c u +:+ "") post ([String c u] ++ [])).
    split; [now apply in_exec_WordB |].
    split; [| simpl; now rewrite app_nil_r_s].
    cbn [matched rest groups last_char]. apply in_exec_Seq.
    exists (Hit (String c u) post [String c u]), (Hit "" post []).
    split; [| split; [now apply in_exec_WordB | reflexivity]].
    apply in_exec_Group.
    exists (Hit (String c "" +:+ u) post ([] ++ [])). split; [| reflexivity].
    apply in_exec_Seq.
    exists (Hit (String c "") (u +:+ post) []), (Hit u post []).
    split; [apply in_exec_Cls; exists c, (u +:+ post); auto |].
    split; [| reflexivity].
    apply in_exec_Plus. exists u, post. auto.
Qed.

Lemma sorted_map_cons (c : ascii) (l : list (string * string)) :
  StronglySorted longer_first l ->
  StronglySorted longer_first
    (map (fun us : string * string => (String c (fst us), snd us)) l).
Proof.
  induction 1 as [|x l Hs IH Hx]; simpl; constructor; [assumption |].
  apply List.Forall_map. eapply List.Forall_impl; [| exact Hx].
  unfold longer_first. intros y Hy. simpl in *. lia.
Qed.

Lemma many_sorted (p : ascii -> bool) (s : string) :
  StronglySorted longer_first (many p s).
Proof.
  induction s as [|c s IH]; simpl.
  - repeat constructor.
  - destruct (p c); [| repeat constructor].
    apply (sorted_map_cons c) in IH. revert IH.
    generalize (map (fun us : string * string => (String c (fst us), snd us))
                    (many p s)) as l.
    induction 1 as [|x l Hs IH Hx]; simpl.
    + repeat constructor.
    + constructor; [assumption |].
      apply List.Forall_app. split; [assumption |].
      repeat constructor. unfold longer_first. simpl. lia.
Qed.

Lemma many1_sorted (p : ascii -> bool) (s : string) :
  StronglySorted longer_first (many1 p s).
Proof.
  destruct s as [|c s]; simpl; [constructor |].
  destruct (p c); [| constructor].
  apply sorted_map_cons, many_sorted.
Qed.

Lemma flat_map_head_longest {A B : Type} (ka : A -> nat) (kb : B -> nat)
    (f : A -> list B) (l : list A) (h : B) (tl : list B) :
  (forall x y, In y (f x) -> kb y = S (ka x)) ->
  StronglySorted (fun a b => (ka b <= ka a)%nat) l ->
  flat_map f l = h :: tl ->
  forall y, In y tl -> (kb y <= kb h)%nat.
Proof.
  intros Hk Hs. revert h tl.
  induction Hs as [|x l Hs IH Hx]; simpl; [discriminate |].
  intros h tl E y Hy.
  destruct (f x) as [|y0 ys] eqn:Hfx; simpl in E.
  - eapply IH; eauto.
  - injection E as <- <-.
    assert (kb y0 = S (ka x)) as -> by (apply Hk; rewrite Hfx; now left).
    apply in_app_or in Hy as [Hy | Hy].
    + rewrite (Hk x y); [lia | rewrite Hfx; now right].
    + apply in_flat_map in Hy as (x' & Hx' & Hy).
      rewrite (Hk x' y Hy). rewrite List.Forall_forall in Hx.
      specialize (Hx x' Hx'). simpl in Hx. lia.
Qed.

(** The matches of the brand pattern at a position, spelled out: one for
    each way of ending the run after the capital at a word boundary. *)
Lemma exec_brand_form prev (c : ascii) (s1 : string) :
  exec brand_re prev (String c s1)
  = if word_boundary prev (Some c) && is_AZ c then
      flat_map
        (fun us : string * string =>
           if word_boundary (last_char (Some c) (fst us)) (first_char (snd us))
           then [Hit (String c (fst us)) (snd us) [String c (fst us)]]
           else [])
        (many1 brand_char s1)
    else [].
Proof.
  unfold brand_re. hits_cbn.
  destruct (word_boundary prev (Some c)); hits_cbn.
  2: reflexivity.
  destruct (is_AZ c); hits_cbn.
  2: reflexivity.
  rewrite !app_nil_r.
  generalize (many1 brand_char s1) as l.
  induction l as [|[u v] l IH]; hits_cbn.
  1: reflexivity.
  destruct (word_boundary (last_char (Some c) u) (first_char v)); hits_cbn.
  - rewrite app_nil_r_s. f_equal. exact IH.
  - exact IH.
Qed.

Lemma exec_brand_head_longest prev s h tl :
  exec brand_re prev s = h :: tl ->
  forall h', In h' tl ->
    (String.length (matched h') <= String.length (matched h))%nat.
Proof.
  intros E h' Hin.
  destruct s as [|c s1].
  { exfalso.
    assert (In h (exec brand_re prev "")) as Hh by (rewrite E; now left).
    apply in_exec_brand in Hh as (t & post & Heq & Ht & _).
    symmetry in Heq. apply app_eq_nil_s in Heq as [-> _].
    now apply brand_token_nonempty in Ht. }
  rewrite exec_brand_form in E.
  destruct (word_boundary prev (Some c) && is_AZ c); [| discriminate].
  refine (flat_map_head_longest
            (fun us : string * string => String.length (fst us))
            (fun h : hit => String.length (matched h))
            _ _ h tl _ (many1_sorted brand_char s1) E h' Hin).
  intros [u v] y. simpl.
  destruct (word_boundary (last_char (Some c) u) (first_char v));
    simpl; [| tauto].
  intros [<- | []]. reflexivity.
Qed.

(** *** The scan of [re.findall] *)

Lemma findall_from_hit fuel (r : re) prev s h tl :
  exec r prev s = h :: tl -> matched h <> "" ->
  findall_from (S fuel) r prev s
  = hd "" (groups h) :: findall_from fuel r (last_char prev (matched h)) (rest h).
Proof.
  intros E Hne. cbn [findall_from]. rewrite E.
  destruct (matched h); [congruence | reflexivity].
Qed.

Lemma findall_from_miss fuel (r : re) prev (c : ascii) s :
  exec r prev (String c s) = [] ->
  findall_from (S fuel) r prev (String c s) = findall_from fuel r (Some c) s.
Proof. intros E. cbn [findall_from]. now rewrite E. Qed.

Lemma findall_from_end fuel (r : re) prev :
  exec r prev "" = [] -> findall_from (S fuel) r prev "" = [].
Proof. intros E. cbn [findall_from]. now rewrite E. Qed.

(** More fuel than the text is long does not change what the scan finds. *)
Lemma findall_from_fuel (r : re) (n : nat) :
  forall m prev s,
    (String.length s < n)%nat -> (String.length s < m)%nat ->
    findall_from n r prev s = findall_from m r prev s.
Proof.
  induction n as [|n IH]; intros m prev s Hn Hm; [lia |].
  destruct m as [|m]; [lia |]. cbn [findall_from].
  destruct (exec r prev s) as [|h tl] eqn:E.
  - destruct s as [|c s]; [reflexivity |]. simpl in Hn, Hm. apply IH; lia.
  - assert (In h (exec r prev s)) as Hin by (rewrite E; now left).
    apply exec_consumes in Hin.
    destruct (matched h) as [|c u] eqn:Hm'.
    + destruct s as [|d s]; [reflexivity |]. simpl in Hn, Hm.
      f_equal. apply IH; lia.
    + f_equal. rewrite Hin, app_length_s in Hn, Hm. simpl in Hn, Hm.
      apply IH; lia.
Qed.

Lemma token_skip (shape : string -> Prop) prev (m s pre t post : string) :
  token_from shape prev (m +:+ s) (m +:+ pre) t post
  <-> token_from shape (last_char prev m) s pre t post.
Proof.
  unfold token_from. rewrite last_char_app, app_assoc_s. split.
  - intros (Heq & H). apply app_inv_head_s in Heq. auto.
  - intros (-> & H). auto.
Qed.

Lemma token_cons (shape : string -> Prop) prev (c : ascii) (s pre t post : string) :
  token_from shape prev (String c s) (String c pre) t post
  <-> token_from shape (Some c) s pre t post.
Proof. apply (token_skip shape prev (String c "")). Qed.

Lemma no_token_at_head prev s :
  exec brand_re prev s = [] ->
  forall t post, ~ token_from brand_token prev s "" t post.
Proof.
  intros E t post (Heq & Ht & Hd). simpl in Heq, Hd.
  assert (In (Hit t post [t]) (exec brand_re prev s)) as Hin
    by (apply in_exec_brand; eauto 6).
  now rewrite E in Hin.
Qed.

Lemma head_token prev s h tl :
  exec brand_re prev s = h :: tl ->
  exists m post,
    h = Hit m post [m] /\ s = m +:+ post
    /\ token_from brand_token prev s "" m post
    /\ forall t' post',
         token_from brand_token prev s "" t' post' ->
         (String.length t' <= String.length m)%nat.
Proof.
  intros E.
  assert (In h (exec brand_re prev s)) as Hin by (rewrite E; now left).
  apply in_exec_brand in Hin as (m & post & Heq & Ht & Hd & ->).
  exists m, post.
  split; [reflexivity |]. split; [assumption |].
  split; [unfold token_from; simpl; auto |].
  intros t' post' (Heq' & Ht' & Hd'). simpl in Heq', Hd'.
  assert (In (Hit t' post' [t']) (exec brand_re prev s)) as Hin'
    by (apply in_exec_brand; eauto 6).
  rewrite E in Hin'. destruct Hin' as [[= <- _] | Hin'].
  - lia.
  - apply (exec_brand_head_longest _ _ _ _ E) in Hin'. exact Hin'.
Qed.

Lemma last_char_in (p : ascii -> bool) prev (a : string) :
  all_chars p a = true -> a <> "" ->
  exists e, last_char prev a = Some e /\ p e = true.
Proof.
  revert prev; induction a as [|c a IH]; intros prev; [congruence |].
  simpl. rewrite andb_true_iff. intros [Hc Ha] _.
  destruct a as [|d a]; [simpl; eauto |].
  apply IH; [assumption | discriminate].
Qed.

Lemma first_char_in (p : ascii -> bool) (a : string) :
  all_chars p a = true -> a <> "" ->
  exists d, first_char a = Some d /\ p d = true.
Proof.
  destruct a as [|c a]; [congruence |].
  simpl. rewrite andb_true_iff. intros [Hc _] _. eauto.
Qed.

Lemma all_chars_lower (p : ascii -> bool) (m : string) :
  all_chars p (lower m) = all_chars (fun c => p (lower_char c)) m.
Proof. induction m as [|c m IH]; simpl; [reflexivity | now rewrite IH]. Qed.

Lemma lower_az_is_word (c : ascii) :
  is_az (lower_char c) = true -> is_word c = true.
Proof.
  destruct c as [[] [] [] [] [] [] [] []]; vm_compute; congruence.
Qed.

Lemma stopword_all_word (m : string) :
  is_stopword (lower m) = true -> all_chars is_word m = true.
Proof.
  intros H. apply is_stopword_spec in H.
  assert (all_chars is_az (lower m) = true) as Haz.
  { simpl in H.
    destruct H as [<- | [<- | [<- | [<- | [<- | []]]]]]; reflexivity. }
  rewrite all_chars_lower in Haz.
  eapply all_chars_impl; [| exact Haz]. apply lower_az_is_word.
Qed.

(** A token that starts within a match made of word characters only is that
    match. *)
Lemma token_within_word prev (m post0 pre' t' post' : string) :
  all_chars is_word m = true ->
  (forall t post, token_from brand_token prev (m +:+ post0) "" t post ->
                  (String.length t <= String.length m)%nat) ->
  token_from brand_token prev (m +:+ post0) pre' t' post' ->
  (String.length pre' < String.length m)%nat ->
  t' = m.
Proof.
  intros Hw Hlong Htok Hlen.
  assert (forall a b : string, a <> "" -> b <> "" ->
            all_chars is_word a = true -> all_chars is_word b = true ->
            forall prev0 rest0,
              word_boundary (last_char prev0 a) (first_char (b +:+ rest0))
              = false) as Hin.
  { clear. intros a b Ha Hb Hwa Hwb prev0 rest0.
    destruct (last_char_in _ prev0 a Hwa Ha) as (e & -> & He).
    rewrite first_char_app by assumption.
    destruct (first_char_in _ b Hwb Hb) as (d & -> & Hd).
    unfold word_boundary. simpl. now rewrite He, Hd. }
  pose proof Htok as (Heq & Ht & Hb & He).
  pose proof (brand_token_nonempty _ Ht) as Hne.
  destruct pre' as [|c pre'].
  - simpl in Heq, He.
    specialize (Hlong _ _ Htok).
    symmetry in Heq.
    destruct (app_eq_app_s _ _ _ _ Heq Hlong) as (x & -> & ->).
    destruct x as [|d x]; [now rewrite app_nil_r_s |].
    exfalso. rewrite all_chars_app in Hw. apply andb_true_iff in Hw as [Hw1 Hw2].
    rewrite (Hin t' (String d x)) in He; try assumption; discriminate.
  - exfalso. symmetry in Heq.
    destruct (app_eq_app_s _ _ _ _ Heq) as (x & -> & Hx); [lia |].
    rewrite app_length_s in Hlen.
    destruct x as [|d x]; [simpl in Hlen; lia |].
    rewrite all_chars_app in Hw. apply andb_true_iff in Hw as [Hw1 Hw2].
    assert (first_char t' = first_char (String d x +:+ post0)) as Hf.
    { rewrite <- Hx. now rewrite first_char_app. }
    rewrite Hf in Hb.
    rewrite (Hin (String c pre') (String d x)) in Hb;
      try assumption; discriminate.
Qed.

Lemma token_in_empty (shape : string -> Prop) prev (pre t post : string) :
  (forall x, shape x -> x <> "") ->
  ~ token_from shape prev "" pre t post.
Proof.
  intros Hne (Heq & Ht & _). symmetry in Heq.
  apply app_eq_nil_s in Heq as [_ Heq]. apply app_eq_nil_s in Heq as [-> _].
  now apply Hne in Ht.
Qed.

(** The candidates of the scan, filtered by the loop, meet the
    specification, whatever the fuel beyond the length of the text. *)
Lemma scan_first_token (fuel : nat) :
  forall prev s,
    (String.length s < fuel)%nat ->
    first_token_spec prev s (first_brand (findall_from fuel brand_re prev s)).
Proof.
  induction fuel as [|fuel IH]; intros prev s Hlen; [lia |].
  destruct (exec brand_re prev s) as [|h tl] eqn:E.
  - (* no candidate starts here *)
    pose proof (no_token_at_head _ _ E) as Hno.
    destruct s as [|c s].
    + rewrite findall_from_end by assumption. simpl.
      intros pre' t' post' H. exfalso.
      eapply token_in_empty; [apply brand_token_nonempty | exact H].
    + rewrite findall_from_miss by assumption.
      specialize (IH (Some c) s ltac:(simpl in Hlen; lia)).
      destruct (first_brand (findall_from fuel brand_re (Some c) s)) as [b|];
        simpl in IH |- *.
      * destruct IH as (pre & post & Htok & Hns & Hlong & Hfirst).
        exists (String c pre), post.
        split; [now apply token_cons |]. split; [assumption |]. split.
        -- intros t' post' H. apply token_cons in H. eauto.
        -- intros pre' t' post' H Hl. destruct pre' as [|c' pre'].
           { exfalso. eapply Hno; eauto. }
           assert (c' = c) as -> by (destruct H as [Heq _]; simpl in Heq; congruence).
           apply token_cons in H. eapply Hfirst; eauto. simpl in Hl. lia.
      * intros pre' t' post' H. destruct pre' as [|c' pre'].
        { exfalso. eapply Hno; eauto. }
        assert (c' = c) as -> by (destruct H as [Heq _]; simpl in Heq; congruence).
        apply token_cons in H. eauto.
  - (* a candidate [m] starts here *)
    destruct (head_token _ _ _ _ E) as (m & post0 & -> & -> & Htok & Hlong).
    pose proof Htok as (_ & Ht & _).
    pose proof (brand_token_nonempty _ Ht) as Hne.
    rewrite (findall_from_hit _ _ _ _ _ _ E) by exact Hne.
    cbn [matched rest groups hd first_brand].
    destruct (is_stopword (lower m)) eqn:Hstop.
    + (* a stopword: the scan resumes after it *)
      pose proof (stopword_all_word _ Hstop) as Hw.
      assert (String.length post0 < fuel)%nat as Hlen'.
      { rewrite app_length_s in Hlen. destruct m; [congruence |].
        simpl in Hlen. lia. }
      specialize (IH (last_char prev m) post0 Hlen').
      assert (forall pre' t' post',
                 token_from brand_token prev (m +:+ post0) pre' t' post' ->
                 (String.length pre' < String.length m)%nat ->
                 is_stopword (lower t') = true) as Hinside.
      { intros pre' t' post' H Hl.
        now rewrite (token_within_word _ _ _ _ _ _ Hw Hlong H Hl). }
      assert (forall pre' t' post',
                 token_from brand_token prev (m +:+ post0) pre' t' post' ->
                 (String.length m <= String.length pre')%nat ->
                 exists pre'', pre' = m +:+ pre''
                   /\ token_from brand_token (last_char prev m) post0 pre'' t' post')
        as Hafter.
      { intros pre' t' post' H Hl. pose proof H as (Heq & _).
        destruct (app_eq_app_s m post0 pre' (t' +:+ post')) as (x & -> & _);
          [now symmetry | assumption |].
        exists x. split; [reflexivity |]. now apply token_skip in H. }
      destruct (first_brand (findall_from fuel brand_re (last_char prev m) post0))
        as [b|]; simpl in IH |- *.
      * destruct IH as (pre & post & Htok' & Hns & Hlong' & Hfirst).
        exists (m +:+ pre), post.
        split; [now apply token_skip |]. split; [assumption |]. split.
        -- intros t' post' H. apply token_skip in H. eauto.
        -- intros pre' t' post' H Hl.
           destruct (Nat.lt_ge_cases (String.length pre') (String.length m))
             as [Hlt | Hge]; [eauto |].
           destruct (Hafter _ _ _ H Hge) as (pre'' & -> & H').
           eapply Hfirst; eauto. rewrite !app_length_s in Hl. lia.
      * intros pre' t' post' H.
        destruct (Nat.lt_ge_cases (String.length pre') (String.length m))
          as [Hlt | Hge]; [eauto |].
        destruct (Hafter _ _ _ H Hge) as (pre'' & -> & H'). eauto.
    + (* the brand *)
      simpl. exists "", post0.
      split; [assumption |]. split; [assumption |]. split; [assumption |].
      intros pre' t' post' _ Hl. simpl in Hl. lia.
Qed.

(** C5, as amended.  [_extract_brand] returns the first token, in order of
    appearance in the original-case text, that is no stopword, where a token
    is a capital letter A-Z followed by at least one letter, digit,
    ampersand, apostrophe or hyphen, with a word boundary on either side,
    taken as long as possible: every token that starts earlier is a
    stopword ("show", "get", "sales", "inventory", "stock" when
    lower-cased).  It returns absent when every token is a stopword.  In
    particular the brand of "Show TechCo sales last 2 weeks" is "TechCo". *)
Theorem extract_brand_first_token (text : string) :
  match _extract_brand text with
  | Some b =>
      exists pre post,
        token_in brand_token text pre b post
        /\ is_stopword (lower b) = false
        /\ (forall t' post',
              token_in brand_token text pre t' post' ->
              (String.length t' <= String.length b)%nat)
        /\ (forall pre' t' post',
              token_in brand_token text pre' t' post' ->
              (String.length pre' < String.length pre)%nat ->
              is_stopword (lower t') = true)
  | None =>
      forall pre' t' post',
        token_in brand_token text pre' t' post' ->
        is_stopword (lower t') = true
  end
  /\ _extract_brand "Show TechCo sales last 2 weeks" = Some "TechCo".
Proof.
  split; [| vm_compute; reflexivity].
  apply (scan_first_token (S (String.length text)) None text). lia.
Qed.

(** C5 as stated fails on a one-letter token: "X" is a capital letter
    followed by no further character, it stands between word boundaries in
    "Get X sales", it is no stopword, and the only token before it ("Get")
    is one; yet the brand is absent. *)
Lemma extract_brand_first_token_counterexample :
  token_in spec_brand_token "Get X sales" "Get " "X" " sales"
  /\ is_stopword (lower "X") = false
  /\ is_stopword (lower "Get") = true
  /\ _extract_brand "Get X sales" = None.
Proof.
  split; [| repeat split; vm_compute; reflexivity].
  split; [reflexivity |]. split.
  - exists "X"%char, "". repeat split.
  - split; vm_compute; reflexivity.
Qed.

(** ** Properties of [handle_intent] *)

Lemma truthy_Some (o : option string) :
  truthy o = true <-> exists s, o = Some s /\ s <> "".
Proof.
  destruct o as [s|]; simpl.
  - rewrite negb_true_iff, eqb_empty. split; [eauto | intros (s' & [= <-] & H); auto].
  - split; [discriminate | intros (s & [=] & _)].
Qed.

(** The handler builds the client, then runs the block its query selects. *)
Lemma handle_intent_resolve {Payload : Type} (w : World Payload)
    (payload : IntentRequest) (sent : list Request) :
  handle_intent w payload sent
  = match __init__ w None None None None with
    | Ok client => resolve w client payload (classify (query payload)) sent
    | Raise e => (Raise e, sent)
    end.
Proof.
  unfold handle_intent, bind, lift, classify, resolve.
  destruct (__init__ w None None None None) as [client|e]; [| reflexivity].
  destruct (existsb _ _); [reflexivity |].
  destruct (contains "sale" _); reflexivity.
Qed.

Lemma init_Ok {Payload : Type} (w : World Payload) (client : EWebClient) :
  __init__ w None None None None = Ok client ->
  truthy (environ w !! "EWEB_BASE_URL") = true
  /\ truthy (environ w !! "EWEB_API_KEY") = true
  /\ default_supplier_id (credentials client)
     = environ w !! "EWEB_DEFAULT_SUPPLIER_ID".
Proof.
  unfold __init__, or_else. simpl.
  destruct (truthy (environ w !! "EWEB_BASE_URL")); simpl; [| discriminate].
  destruct (truthy (environ w !! "EWEB_API_KEY")); simpl; [| discriminate].
  intros [= <-]. auto.
Qed.

Lemma stock_params (client : EWebClient) (sid : string) (brand : option string) :
  omap (fun v : option pyval => v)
    ({[ "supplierId" := VStr <$> Some sid; "brand" := VStr <$> brand;
        "page" := Some (VInt 1); "pageSize" := Some (VInt 100) ]}
     : gmap string (option pyval))
  = params (stock_request client sid brand).
Proof.
  apply map_eq. intros k. rewrite lookup_omap.
  destruct (decide (k = "supplierId")) as [-> | N1];
    [destruct brand; reflexivity |].
  destruct (decide (k = "brand")) as [-> | N2];
    [destruct brand; reflexivity |].
  destruct (decide (k = "page")) as [-> | N3];
    [destruct brand; reflexivity |].
  destruct (decide (k = "pageSize")) as [-> | N4];
    [destruct brand; reflexivity |].
  destruct brand; simpl;
    rewrite !lookup_insert_ne, !lookup_singleton_ne by congruence;
    reflexivity.
Qed.

Lemma truthy_or_else (a b : option string) :
  truthy (or_else a b) = truthy a || truthy b.
Proof. unfold or_else. destruct (truthy a) eqn:E; simpl; auto. Qed.

(** The stock block with a supplier: one request, then the response. *)
Lemma resolve_supplier_stock_sends {Payload : Type} (w : World Payload)
    (client : EWebClient) (payload : IntentRequest) (sent : list Request)
    (sid : string) :
  or_else (supplier_id payload) (default_supplier_id (credentials client))
  = Some sid ->
  sid <> "" ->
  let brand := _extract_brand (query payload) in
  resolve_supplier_stock w client payload sent
  = (rbind (received w (stock_request client sid brand))
       (fun data =>
          Ok {| intent := "supplier_stock";
                parameters := {[ "supplier_id" := Some sid; "brand" := brand ]};
                data := data |}),
     (sent ++ [stock_request client sid brand])%list).
Proof.
  intros Hsid Hne brand.
  assert (truthy (Some sid) = true) as Ht by (apply truthy_Some; eauto).
  unfold resolve_supplier_stock. rewrite Hsid, Ht. cbn [negb].
  unfold get_supplier_stock, or_else. repeat (rewrite Ht; cbn [negb]).
  unfold bind, _request, received.
  assert ({| method := "GET";
             url := base_url (credentials client) +:+ "/"
                    +:+ lstrip "/" "/inventory/supplier-stock";
             headers := _headers client;
             params :=
               omap (fun v : option pyval => v)
                 (default ∅
                    (Some ({[ "supplierId" := VStr <$> Some sid;
                              "brand" := VStr <$> _extract_brand (query payload);
                              "page" := Some (VInt 1);
                              "pageSize" := Some (VInt 100) ]}
                           : gmap string (option pyval)))) |}
          = stock_request client sid brand) as ->.
  { unfold stock_request. f_equal. cbn [default].
    apply (stock_params client). }
  destruct (network w (stock_request client sid brand)); reflexivity.
Qed.

Lemma resolve_supplier_stock_missing {Payload : Type} (w : World Payload)
    (client : EWebClient) (payload : IntentRequest) (sent : list Request) :
  truthy (or_else (supplier_id payload)
            (default_supplier_id (credentials client))) = false ->
  resolve_supplier_stock w client payload sent = (Raise supplier_required, sent).
Proof. intros H. unfold resolve_supplier_stock. now rewrite H. Qed.

Lemma extract_brand_nonempty (text b : string) :
  _extract_brand text = Some b -> b <> "".
Proof.
  intros H.
  pose proof (scan_first_token (S (String.length text)) None text
                ltac:(lia)) as Hs.
  fold (findall brand_re text) in Hs. fold (_extract_brand text) in Hs.
  rewrite H in Hs. destruct Hs as (pre & post & (_ & Ht & _) & _).
  now apply brand_token_nonempty.
Qed.

Lemma bind_keywords_twice {V : Type} (names : list string) (k : string)
    (v v' : V) (m : gmap string V) :
  bind_keywords names [(k, v)] (<[k := v']> m) = Raise TypeError.
Proof.
  unfold bind_keywords. simpl. rewrite lookup_insert_eq.
  rewrite bool_decide_eq_true_2 by eauto. reflexivity.
Qed.

Lemma extract_time_window_Raise (now : Z) (text : string) (e : exn) :
  _extract_time_window now text = Raise e ->
  e = OverflowError \/ exists msg, e = ValueError msg.
Proof.
  unfold _extract_time_window.
  destruct (find_quantity_unit (lower text)) as [[[n u]|]|e'] eqn:E;
    cbn [rbind]; [| discriminate |].
  - unfold delta_of, timedelta, sub.
    repeat match goal with
           | |- context [if ?b then _ else _] => destruct b; cbn [rbind]
           end;
      intros H; try discriminate H; injection H as <-; auto.
  - intros [= <-]. right. eapply find_quantity_unit_Raise; eauto.
Qed.

(** The sales block, case by case: it never reaches the collaborator. *)
Lemma resolve_sales_history_cases {Payload : Type} (w : World Payload)
    (client : EWebClient) (payload : IntentRequest) (sent : list Request) :
  resolve_sales_history w client payload sent
  = match _extract_time_window (utcnow w) (query payload) with
    | Raise e => (Raise e, sent)
    | Ok _ =>
        match _extract_brand (query payload) with
        | None => (Raise brand_required, sent)
        | Some _ => (Raise TypeError, sent)
        end
    end.
Proof.
  unfold resolve_sales_history, bind, lift.
  destruct (_extract_time_window (utcnow w) (query payload)) as [d|e];
    [| reflexivity].
  destruct (_extract_brand (query payload)) as [b|] eqn:Hb; [| reflexivity].
  apply extract_brand_nonempty in Hb.
  assert (truthy (Some b) = true) as -> by (apply truthy_Some; eauto).
  cbn [negb]. now rewrite bind_keywords_twice.
Qed.

Lemma classify_spec (text : string) :
  let t := lower text in
  (occurs "inventory" t \/ occurs "stock" t -> classify text = Some SupplierStock)
  /\ (~ occurs "inventory" t -> ~ occurs "stock" t -> occurs "sale" t ->
      classify text = Some SalesHistory)
  /\ (~ occurs "inventory" t -> ~ occurs "stock" t -> ~ occurs "sale" t ->
      classify text = None).
Proof.
  intros t. unfold classify. fold t. cbn [existsb].
  rewrite orb_false_r.
  destruct (contains "inventory" t) eqn:Ei;
    [apply contains_spec in Ei | apply contains_false in Ei];
    (destruct (contains "stock" t) eqn:Es;
     [apply contains_spec in Es | apply contains_false in Es]);
    (destruct (contains "sale" t) eqn:El;
     [apply contains_spec in El | apply contains_false in El]);
    cbn [orb]; repeat split; intros; try reflexivity; tauto.
Qed.

(** C2.  Classification follows a fixed priority: a lower-cased text that
    contains "inventory" or "stock" selects SupplierStock; otherwise one
    that contains "sale" selects SalesHistory; otherwise classification
    fails.  So a text with both "stock" and "sale" selects SupplierStock.
    The handler, once its client is built, runs the block of the selected
    intent, and raises the unrecognized-intent error when none is. *)
Theorem classification_priority (text : string) :
  let t := lower text in
  (occurs "inventory" t \/ occurs "stock" t -> classify text = Some SupplierStock)
  /\ (~ occurs "inventory" t -> ~ occurs "stock" t -> occurs "sale" t ->
      classify text = Some SalesHistory)
  /\ (~ occurs "inventory" t -> ~ occurs "stock" t -> ~ occurs "sale" t ->
      classify text = None)
  /\ (occurs "stock" t -> occurs "sale" t -> classify text = Some SupplierStock)
  /\ (forall (Payload : Type) (w : World Payload) (override : option string)
             (sent : list Request),
        let payload := {| query := text; supplier_id := override |} in
        handle_intent w payload sent
        = match __init__ w None None None None with
          | Ok client =>
              match classify text with
              | Some SupplierStock => resolve_supplier_stock w client payload sent
              | Some SalesHistory => resolve_sales_history w client payload sent
              | None => (Raise unrecognized_intent, sent)
              end
          | Raise e => (Raise e, sent)
          end).
Proof.
  intros t. destruct (classify_spec text) as (H1 & H2 & H3).
  repeat split; auto.
  intros Payload w override sent payload.
  rewrite handle_intent_resolve. unfold resolve. subst payload. cbn [query].
  destruct (__init__ w None None None None); [| reflexivity].
  destruct (classify text) as [[]|]; reflexivity.
Qed.

(** C3.  For a query classified SupplierStock, with the client built, the
    supplier identifier is the caller's override when that is a non-empty
    text and the configured default (EWEB_DEFAULT_SUPPLIER_ID) otherwise.
    When that gives an identifier, the handler assembles the parameters
    supplier_id and brand, sends exactly one request, the stock lookup for
    that supplier and brand, and answers with intent "supplier_stock", those
    parameters and the payload received (or raises what the lookup raised).
    So "Show ACME stock" with default supplier "S1" and no override is
    resolved to supplier_id "S1" and brand "ACME". *)
Theorem supplier_stock_dispatch {Payload : Type} (w : World Payload)
    (payload : IntentRequest) (client : EWebClient) (sent : list Request) :
  __init__ w None None None None = Ok client ->
  classify (query payload) = Some SupplierStock ->
  let override := supplier_id payload in
  let configured := default_supplier_id (credentials client) in
  let resolved := if truthy override then override else configured in
  let brand := _extract_brand (query payload) in
  configured = environ w !! "EWEB_DEFAULT_SUPPLIER_ID"
  /\ (forall sid,
        resolved = Some sid -> sid <> "" ->
        handle_intent w payload sent
        = (rbind (received w (stock_request client sid brand))
             (fun data =>
                Ok {| intent := "supplier_stock";
                      parameters :=
                        {[ "supplier_id" := Some sid; "brand" := brand ]};
                      data := data |}),
           (sent ++ [stock_request client sid brand])%list))
  /\ (query payload = "Show ACME stock" -> override = None ->
      configured = Some "S1" ->
      handle_intent w payload sent
      = (rbind (received w (stock_request client "S1" (Some "ACME")))
           (fun data =>
              Ok {| intent := "supplier_stock";
                    parameters :=
                      {[ "supplier_id" := Some "S1"; "brand" := Some "ACME" ]};
                    data := data |}),
         (sent ++ [stock_request client "S1" (Some "ACME")])%list)).
Proof.
  intros Hinit Hk override configured resolved brand.
  assert (forall sid,
        resolved = Some sid -> sid <> "" ->
        handle_intent w payload sent
        = (rbind (received w (stock_request client sid brand))
             (fun data =>
                Ok {| intent := "supplier_stock";
                      parameters :=
                        {[ "supplier_id" := Some sid; "brand" := brand ]};
                      data := data |}),
           (sent ++ [stock_request client sid brand])%list)) as Hsend.
  { intros sid Hsid Hne.
    rewrite handle_intent_resolve, Hinit, Hk. cbn [resolve].
    now apply resolve_supplier_stock_sends. }
  split; [apply (init_Ok w client Hinit) |]. split; [exact Hsend |].
  intros Hq Ho Hc.
  assert (brand = Some "ACME") as Hb
    by (unfold brand; rewrite Hq; vm_compute; reflexivity).
  rewrite <- Hb. apply Hsend; [| discriminate].
  unfold resolved. now rewrite Ho.
Qed.

Lemma supplier_stock_dispatch_witness :
  let payload := {| query := "Show ACME stock"; supplier_id := None |} in
  __init__ configured_world None None None None = Ok configured_client
  /\ classify (query payload) = Some SupplierStock
  /\ handle_intent configured_world payload []
     = (Ok {| intent := "supplier_stock";
              parameters :=
                {[ "supplier_id" := Some "S1"; "brand" := Some "ACME" ]};
              data := "{}" |},
        [stock_request configured_client "S1" (Some "ACME")]).
Proof.
  intros payload.
  assert (__init__ configured_world None None None None = Ok configured_client)
    as Hinit by (vm_compute; reflexivity).
  assert (classify (query payload) = Some SupplierStock) as Hk
    by (vm_compute; reflexivity).
  split; [exact Hinit |]. split; [exact Hk |].
  destruct (supplier_stock_dispatch configured_world payload configured_client
              [] Hinit Hk) as (_ & _ & H).
  apply H; reflexivity.
Defined.

Lemma resolve_supplier_stock_outcome {Payload : Type} (w : World Payload)
    (client : EWebClient) (payload : IntentRequest) (sent : list Request) :
  let supplier :=
    or_else (supplier_id payload) (default_supplier_id (credentials client)) in
  (truthy supplier = false
   /\ resolve_supplier_stock w client payload sent = (Raise supplier_required, sent))
  \/ (truthy supplier = true
      /\ exists request,
           snd (resolve_supplier_stock w client payload sent)
           = (sent ++ [request])%list
           /\ ((exists response,
                  fst (resolve_supplier_stock w client payload sent) = Ok response)
               \/ exists info,
                    fst (resolve_supplier_stock w client payload sent)
                    = Raise (HTTPError info))).
Proof.
  intros supplier. destruct (truthy supplier) eqn:Ht.
  - right. split; [reflexivity |].
    apply truthy_Some in Ht as (sid & Hsid & Hne).
    rewrite (resolve_supplier_stock_sends w client payload sent sid Hsid Hne).
    eexists. split; [reflexivity |]. unfold received. cbn [fst].
    destruct (network w _); cbn [rbind]; eauto.
  - left. split; [reflexivity |]. now apply resolve_supplier_stock_missing.
Qed.

(** C4, as amended.  With the client built, the handler fails with the
    supplier-identifier error exactly when the intent is SupplierStock and
    neither the override nor the configured default is a non-empty
    identifier; and it fails with the brand error exactly when the intent is
    SalesHistory, brand extraction returned absent, and time-window
    extraction returned.  In both failures no request is sent. *)
Theorem missing_entity_failures {Payload : Type} (w : World Payload)
    (payload : IntentRequest) (client : EWebClient) (sent : list Request) :
  __init__ w None None None None = Ok client ->
  let out := handle_intent w payload sent in
  (fst out = Raise supplier_required <->
   classify (query payload) = Some SupplierStock
   /\ truthy (supplier_id payload) = false
   /\ truthy (default_supplier_id (credentials client)) = false)
  /\ (fst out = Raise brand_required <->
      classify (query payload) = Some SalesHistory
      /\ _extract_brand (query payload) = None
      /\ exists window,
           _extract_time_window (utcnow w) (query payload) = Ok window)
  /\ (fst out = Raise supplier_required \/ fst out = Raise brand_required ->
      snd out = sent).
Proof.
  intros Hinit out. subst out.
  rewrite handle_intent_resolve, Hinit. unfold resolve.
  destruct (classify (query payload)) as [[]|].
  - (* SupplierStock *)
    pose proof (resolve_supplier_stock_outcome w client payload sent) as Hout.
    cbv zeta in Hout. rewrite truthy_or_else in Hout.
    destruct Hout as [[Ht ->] | [Ht (request & Hs & Hf)]].
    + apply orb_false_iff in Ht as [Ho Hd]. cbn [fst snd].
      repeat split; auto; try discriminate.
      intros (H & _). discriminate H.
    + assert (fst (resolve_supplier_stock w client payload sent)
              <> Raise supplier_required
              /\ fst (resolve_supplier_stock w client payload sent)
                 <> Raise brand_required) as [N1 N2]
        by (destruct Hf as [[r ->] | [info ->]]; split; discriminate).
      repeat split; try tauto.
      * intros (_ & Ho & Hd). rewrite Ho, Hd in Ht. discriminate.
      * intros (H & _). discriminate H.
  - (* SalesHistory *)
    rewrite resolve_sales_history_cases.
    destruct (_extract_time_window (utcnow w) (query payload)) as [d|e] eqn:Etw.
    + destruct (_extract_brand (query payload)) as [b|]; cbn [fst snd];
        repeat split; eauto; try discriminate;
        try (intros (H & _); discriminate H);
        try (intros (_ & H & _); discriminate H);
        try (intros [H | H]; discriminate H).
    + apply extract_time_window_Raise in Etw. cbn [fst snd].
      assert (e <> supplier_required /\ e <> brand_required) as [N1 N2]
        by (destruct Etw as [-> | [msg ->]]; split; discriminate).
      repeat split; try congruence;
        try (intros (H & _); discriminate H);
        try (intros (_ & _ & d & H); discriminate H);
        try (intros [H | H]; congruence).
  - (* no intent *)
    cbn [fst snd]. unfold raise. cbn [fst snd].
    repeat split; try discriminate;
      try (intros (H & _); discriminate H);
      try (intros [H | H]; discriminate H).
Qed.

Lemma missing_entity_failures_witness :
  let payload := {| query := "show sales of last week"; supplier_id := None |} in
  __init__ configured_world None None None None = Ok configured_client
  /\ handle_intent configured_world payload [] = (Raise brand_required, []).
Proof.
  intros payload.
  assert (__init__ configured_world None None None None = Ok configured_client)
    as Hinit by (vm_compute; reflexivity).
  split; [exact Hinit |].
  destruct (missing_entity_failures configured_world payload configured_client
              [] Hinit) as (_ & [_ Hb] & Hs).
  assert (fst (handle_intent configured_world payload []) = Raise brand_required)
    as Hf.
  { apply Hb. split; [vm_compute; reflexivity |].
    split; [vm_compute; reflexivity |].
    eexists. vm_compute. reflexivity. }
  specialize (Hs (or_intror Hf)).
  destruct (handle_intent configured_world payload []) as [r l].
  simpl in Hf, Hs. now subst.
Defined.

(** C4 as stated fails: a sales query without a brand whose time window
    starts before 0001-01-01 is answered by the exception of the date
    subtraction, raised before the brand is looked at. *)
Lemma missing_entity_failures_counterexample :
  let payload := {| query := "sales last 5000 years"; supplier_id := None |} in
  __init__ configured_world None None None None = Ok configured_client
  /\ classify (query payload) = Some SalesHistory
  /\ _extract_brand (query payload) = None
  /\ handle_intent configured_world payload [] = (Raise OverflowError, [])
  /\ fst (handle_intent configured_world payload []) <> Raise brand_required.
Proof.
  intros payload.
  assert (handle_intent configured_world payload [] = (Raise OverflowError, []))
    as H by (vm_compute; reflexivity).
  repeat split; try (vm_compute; reflexivity).
  rewrite H. discriminate.
Qed.

(** C1 (what the code does instead).  For a query classified SalesHistory
    whose brand extraction yields a brand, the handler, with its client
    built, sends no request and returns no response: the parameter
    dictionary already holds "brand" when the handler calls
    [get_sales_history(brand=brand, **params)], so the call raises
    [TypeError] before the collaborator runs (unless time-window extraction
    has raised even earlier). *)
Theorem sales_history_never_dispatched {Payload : Type} (w : World Payload)
    (payload : IntentRequest) (client : EWebClient) (sent : list Request)
    (b : string) :
  __init__ w None None None None = Ok client ->
  classify (query payload) = Some SalesHistory ->
  _extract_brand (query payload) = Some b ->
  snd (handle_intent w payload sent) = sent
  /\ match _extract_time_window (utcnow w) (query payload) with
     | Ok _ => fst (handle_intent w payload sent) = Raise TypeError
     | Raise e => fst (handle_intent w payload sent) = Raise e
     end.
Proof.
  intros Hinit Hk Hb.
  rewrite handle_intent_resolve, Hinit, Hk. cbn [resolve].
  rewrite resolve_sales_history_cases, Hb.
  destruct (_extract_time_window (utcnow w) (query payload)); auto.
Qed.

Lemma sales_history_never_dispatched_witness :
  let payload :=
    {| query := "Show TechCo sales last 2 weeks"; supplier_id := None |} in
  __init__ configured_world None None None None = Ok configured_client
  /\ classify (query payload) = Some SalesHistory
  /\ _extract_brand (query payload) = Some "TechCo"
  /\ handle_intent configured_world payload [] = (Raise TypeError, []).
Proof.
  intros payload.
  assert (__init__ configured_world None None None None = Ok configured_client)
    as Hinit by (vm_compute; reflexivity).
  assert (classify (query payload) = Some SalesHistory) as Hk
    by (vm_compute; reflexivity).
  assert (_extract_brand (query payload) = Some "TechCo") as Hb
    by (vm_compute; reflexivity).
  split; [exact Hinit |]. split; [exact Hk |]. split; [exact Hb |].
  destruct (sales_history_never_dispatched configured_world payload
              configured_client [] "TechCo" Hinit Hk Hb) as [Hs Hf].
  assert (_extract_time_window (utcnow configured_world) (query payload)
          = Ok (window (739923 - 14) 739923)) as Hw
    by (vm_compute; reflexivity).
  rewrite Hw in Hf.
  destruct (handle_intent configured_world payload []) as [r l].
  simpl in Hs, Hf. now subst.
Defined.

(** C10.  The handler builds the collaborator client before it classifies
    or validates anything.  When the base URL or the API key is not
    configured (absent or empty), every request, whatever its query and
    override, fails with the client's configuration error, not with the
    unrecognized-intent or a missing-entity error, and sends nothing. *)
Theorem client_configuration_first {Payload : Type} (w : World Payload)
    (payload : IntentRequest) (sent : list Request) :
  truthy (environ w !! "EWEB_BASE_URL") = false
  \/ truthy (environ w !! "EWEB_API_KEY") = false ->
  (handle_intent w payload sent
   = (Raise (if truthy (environ w !! "EWEB_BASE_URL")
             then api_key_required else base_url_required), sent))
  /\ fst (handle_intent w payload sent) <> Raise unrecognized_intent
  /\ fst (handle_intent w payload sent) <> Raise supplier_required
  /\ fst (handle_intent w payload sent) <> Raise brand_required.
Proof.
  intros H. rewrite handle_intent_resolve.
  unfold __init__, or_else. cbn [truthy].
  destruct (truthy (environ w !! "EWEB_BASE_URL")) eqn:Eb; cbn [negb].
  - destruct H as [H | H]; [discriminate |]. rewrite H. cbn [negb fst].
    repeat split; discriminate.
  - cbn [fst]. repeat split; discriminate.
Qed.

Lemma client_configuration_first_witness :
  truthy (environ unconfigured_world !! "EWEB_BASE_URL") = false
  /\ handle_intent unconfigured_world
       {| query := "hello"; supplier_id := None |} []
     = (Raise base_url_required, [])
  /\ handle_intent unconfigured_world
       {| query := "show stock"; supplier_id := None |} []
     = (Raise base_url_required, []).
Proof.
  assert (truthy (environ unconfigured_world !! "EWEB_BASE_URL") = false) as H
    by reflexivity.
  split; [exact H |]. split.
  - exact (proj1 (client_configuration_first unconfigured_world
                    {| query := "hello"; supplier_id := None |} []
                    (or_introl H))).
  - exact (proj1 (client_configuration_first unconfigured_world
                    {| query := "show stock"; supplier_id := None |} []
                    (or_introl H))).
Defined.

(** ** Further properties of the client *)

Lemma last_char_nonempty (prev prev' : option ascii) (s : string) :
  s <> "" -> last_char prev s = last_char prev' s.
Proof. destruct s; [congruence | reflexivity]. Qed.

(** [rstrip] removes trailing copies of the character and nothing else. *)
Lemma rstrip_spec (ch : ascii) (s : string) :
  exists n,
    s = rstrip ch s +:+ repeat_char n ch
    /\ last_char None (rstrip ch s) <> Some ch.
Proof.
  induction s as [|c s (n & Hs & Hl)]; simpl.
  - exists 0%nat. split; [reflexivity | discriminate].
  - destruct (Ascii.eqb_spec c ch) as [-> | Hc]; simpl.
    + destruct (rstrip ch s) as [|d r] eqn:Er; simpl in *.
      * exists (S n). simpl. split; [congruence | discriminate].
      * exists n. split; [congruence | exact Hl].
    + exists n. split; [congruence |].
      destruct (rstrip ch s) as [|d r] eqn:Er; simpl in *.
      * congruence.
      * exact Hl.
Qed.

(** [lstrip] removes leading copies of the character and nothing else. *)
Lemma lstrip_spec (ch : ascii) (s : string) :
  exists n,
    s = repeat_char n ch +:+ lstrip ch s
    /\ first_char (lstrip ch s) <> Some ch.
Proof.
  induction s as [|c s (n & Hs & Hf)]; simpl.
  - exists 0%nat. split; [reflexivity | discriminate].
  - destruct (Ascii.eqb_spec c ch) as [-> | Hc].
    + exists (S n). simpl. split; [congruence | exact Hf].
    + exists 0%nat. simpl. split; [reflexivity | congruence].
Qed.

Lemma truthy_default (o : option string) :
  truthy o = true -> o = Some (default "" o) /\ default "" o <> "".
Proof.
  intros H. apply truthy_Some in H as (s & -> & Hne). simpl. auto.
Qed.

(** X1.  [EWebClient.__init__] builds a client exactly when a base URL and
    an API key are given, by argument or by environment, and are not empty.
    The client then keeps the API key as given and the base URL without its
    trailing slashes: the configured URL is the kept one followed by
    slashes only, and the kept one does not end with a slash. *)
Theorem init_normalises_base_url {Payload : Type} (w : World Payload)
    (b k a d : option string) :
  let base := or_else b (environ w !! "EWEB_BASE_URL") in
  let key := or_else k (environ w !! "EWEB_API_KEY") in
  ((exists client, __init__ w b k a d = Ok client)
   <-> truthy base = true /\ truthy key = true)
  /\ forall client,
       __init__ w b k a d = Ok client ->
       (exists n,
          base = Some (base_url (credentials client) +:+ repeat_char n "/"))
       /\ last_char None (base_url (credentials client)) <> Some "/"%char
       /\ key = Some (api_key (credentials client))
       /\ api_key (credentials client) <> ""
       /\ account_id (credentials client)
          = or_else a (environ w !! "EWEB_ACCOUNT_ID")
       /\ default_supplier_id (credentials client)
          = or_else d (environ w !! "EWEB_DEFAULT_SUPPLIER_ID").
Proof.
  intros base key. unfold __init__. fold base. fold key.
  destruct (truthy base) eqn:Hb; cbn [negb].
  2: { split; [split; [intros (c & H); discriminate H | intros [H _]; discriminate H] |].
       intros c H. discriminate H. }
  destruct (truthy key) eqn:Hk; cbn [negb].
  2: { split; [split; [intros (c & H); discriminate H | intros [_ H]; discriminate H] |].
       intros c H. discriminate H. }
  split; [split; [auto | eauto] |].
  intros client [= <-]. cbn [credentials base_url api_key account_id
                             default_supplier_id].
  destruct (truthy_default _ Hb) as [Eb _].
  destruct (truthy_default _ Hk) as [Ek Hne].
  destruct (rstrip_spec "/" (default "" base)) as (n & Hs & Hl).
  split; [exists n; rewrite <- Hs; exact Eb |].
  repeat split; auto.
Qed.

Lemma init_base_url_kept {Payload : Type} (w : World Payload)
    (b k a d : option string) (client : EWebClient) :
  __init__ w b k a d = Ok client ->
  last_char None (base_url (credentials client)) <> Some "/"%char.
Proof.
  unfold __init__.
  destruct (truthy (or_else b (environ w !! "EWEB_BASE_URL"))); cbn [negb];
    [| discriminate].
  destruct (truthy (or_else k (environ w !! "EWEB_API_KEY"))); cbn [negb];
    [| discriminate].
  intros [= <-]. cbn [credentials base_url].
  now destruct (rstrip_spec "/" (default "" (or_else b (environ w !! "EWEB_BASE_URL"))))
    as (n & _ & Hl).
Qed.

(** X2.  [_request], on a client built by [__init__], sends exactly one
    request, whatever the service answers, and returns the payload received
    or raises the failure.  Its URL is the kept base URL, one slash, and the
    path without its leading slashes, so that no slash is doubled at the
    join; its query parameters are the given ones whose value is not
    [None]. *)
Theorem request_joins_url {Payload : Type} (w : World Payload)
    (b k a d : option string) (client : EWebClient)
    (verb path : string) (given : option (gmap string (option pyval)))
    (sent : list Request) :
  __init__ w b k a d = Ok client ->
  exists request tail n,
    _request w client verb path given sent
    = (received w request, (sent ++ [request])%list)
    /\ path = repeat_char n "/" +:+ tail
    /\ first_char tail <> Some "/"%char
    /\ last_char None (base_url (credentials client)) <> Some "/"%char
    /\ url request = base_url (credentials client) +:+ "/" +:+ tail
    /\ method request = verb
    /\ headers request = _headers client
    /\ forall name v,
         params request !! name = Some v
         <-> exists m, given = Some m /\ m !! name = Some (Some v).
Proof.
  intros Hinit.
  pose proof (init_base_url_kept w b k a d client Hinit) as Hl.
  destruct (lstrip_spec "/" path) as (n & Hp & Hf).
  eexists _, (lstrip "/" path), n.
  split; [reflexivity |]. cbn [url method headers params].
  repeat split; auto.
  - rewrite lookup_omap. destruct given as [m|]; cbn [default]; unfold id.
    + destruct (m !! name) as [[x|]|] eqn:E; simpl; intros [= ->]; eauto.
    + rewrite lookup_empty. discriminate.
  - intros (m & -> & Hm). cbn [default]. unfold id.
    rewrite lookup_omap, Hm. reflexivity.
Qed.

Lemma request_joins_url_witness :
  __init__ configured_world None None None None = Ok configured_client
  /\ exists request,
       _request configured_world configured_client "GET" "//sales/history" None []
       = (Ok "{}", [request])
       /\ url request = "https://eweb.example/api/sales/history".
Proof.
  assert (__init__ configured_world None None None None = Ok configured_client)
    as Hinit by (vm_compute; reflexivity).
  split; [exact Hinit |].
  destruct (request_joins_url configured_world None None None None
              configured_client "GET" "//sales/history" None [] Hinit)
    as (request & tail & n & Hr & Hp & Hf & _ & Hu & _).
  exists request. split; [exact Hr |].
  rewrite Hu.
  destruct n as [|[|[|n]]]; simpl in Hp.
  - subst tail. now contradiction Hf.
  - injection Hp as <-. now contradiction Hf.
  - injection Hp as <-. reflexivity.
  - discriminate Hp.
Defined.

Lemma headers_lookup (self : EWebClient) :
  _headers self !! "Authorization"
  = Some ("Bearer " +:+ api_key (credentials self))
  /\ _headers self !! "Accept" = Some "application/json"
  /\ _headers self !! "Content-Type" = Some "application/json"
  /\ _headers self !! "X-Account-ID"
     = (if truthy (account_id (credentials self))
        then account_id (credentials self) else None)
  /\ forall name,
       name <> "Authorization" -> name <> "Accept" ->
       name <> "Content-Type" -> name <> "X-Account-ID" ->
       _headers self !! name = None.
Proof.
  unfold _headers.
  destruct (account_id (credentials self)) as [acct|]; simpl;
    [destruct (acct =? "") eqn:E; simpl |];
    repeat split; try reflexivity;
    intros name N1 N2 N3 N4;
    now rewrite ?lookup_insert_ne, lookup_singleton_ne by congruence.
Qed.

(** X3.  Every request of a client built by [__init__] carries the
    configured API key as bearer token and asks for JSON; it carries the
    account header exactly when an account identifier is configured and not
    empty, and no other header. *)
Theorem requests_are_authenticated {Payload : Type} (w : World Payload)
    (b k a d : option string) (client : EWebClient)
    (verb path : string) (given : option (gmap string (option pyval)))
    (sent : list Request) :
  __init__ w b k a d = Ok client ->
  exists request key,
    snd (_request w client verb path given sent) = (sent ++ [request])%list
    /\ or_else k (environ w !! "EWEB_API_KEY") = Some key
    /\ headers request !! "Authorization" = Some ("Bearer " +:+ key)
    /\ headers request !! "Accept" = Some "application/json"
    /\ headers request !! "Content-Type" = Some "application/json"
    /\ headers request !! "X-Account-ID"
       = (let account := or_else a (environ w !! "EWEB_ACCOUNT_ID") in
          if truthy account then account else None)
    /\ forall name,
         name <> "Authorization" -> name <> "Accept" ->
         name <> "Content-Type" -> name <> "X-Account-ID" ->
         headers request !! name = None.
Proof.
  intros Hinit.
  destruct (headers_lookup client) as (H1 & H2 & H3 & H4 & H5).
  assert (or_else k (environ w !! "EWEB_API_KEY")
          = Some (api_key (credentials client))
          /\ account_id (credentials client)
             = or_else a (environ w !! "EWEB_ACCOUNT_ID")) as [Hk Ha].
  { revert Hinit. unfold __init__.
    destruct (truthy (or_else b (environ w !! "EWEB_BASE_URL"))); cbn [negb];
      [| discriminate].
    destruct (truthy (or_else k (environ w !! "EWEB_API_KEY"))) eqn:Ek;
      cbn [negb]; [| discriminate].
    intros [= <-]. cbn [credentials api_key account_id].
    split; [apply (truthy_default _ Ek) | reflexivity]. }
  eexists _, (api_key (credentials client)).
  split; [reflexivity |]. cbn [headers]. cbv zeta. rewrite <- Ha.
  repeat split; assumption.
Qed.

Lemma requests_are_authenticated_witness :
  __init__ configured_world None None None None = Ok configured_client
  /\ exists request,
       snd (_request configured_world configured_client "GET" "/x" None [])
       = [request]
       /\ headers request !! "Authorization" = Some "Bearer secret"
       /\ headers request !! "X-Account-ID" = None.
Proof.
  assert (__init__ configured_world None None None None = Ok configured_client)
    as Hinit by (vm_compute; reflexivity).
  split; [exact Hinit |].
  destruct (requests_are_authenticated configured_world None None None None
              configured_client "GET" "/x" None [] Hinit)
    as (request & key & Hs & Hk & Hauth & _ & _ & Hacct & _).
  exists request. split; [exact Hs |].
  assert (key = "secret") as ->
    by (vm_compute in Hk; now injection Hk as <-).
  split; [exact Hauth | exact Hacct].
Defined.

(** X4.  [get_supplier_stock] uses the supplier it is given unless that is
    absent or empty, in which case it uses the client's default.  With
    neither it raises its own [ValueError] and sends nothing.  Otherwise it
    sends one GET to [/inventory/supplier-stock] whose parameters are the
    supplier, the page and the page size, and the brand exactly when one is
    given. *)
Theorem get_supplier_stock_request {Payload : Type} (w : World Payload)
    (client : EWebClient) (supplier brand : option string)
    (page page_size : Z) (sent : list Request) :
  let resolved := or_else supplier (default_supplier_id (credentials client)) in
  (resolved = (if truthy supplier then supplier
               else default_supplier_id (credentials client)))
  /\ (truthy resolved = false ->
      get_supplier_stock w client supplier brand page page_size sent
      = (Raise client_supplier_required, sent))
  /\ (forall sid,
        resolved = Some sid -> sid <> "" ->
        exists request,
          get_supplier_stock w client supplier brand page page_size sent
          = (received w request, (sent ++ [request])%list)
          /\ method request = "GET"
          /\ url request
             = base_url (credentials client) +:+ "/inventory/supplier-stock"
          /\ params request !! "supplierId" = Some (VStr sid)
          /\ params request !! "brand" = VStr <$> brand
          /\ params request !! "page" = Some (VInt page)
          /\ params request !! "pageSize" = Some (VInt page_size)
          /\ forall name,
               name <> "supplierId" -> name <> "brand" ->
               name <> "page" -> name <> "pageSize" ->
               params request !! name = None).
Proof.
  intros resolved. split; [reflexivity |].
  unfold get_supplier_stock. fold resolved. split.
  - intros ->. reflexivity.
  - intros sid Hsid Hne.
    assert (truthy resolved = true) as -> by (apply truthy_Some; eauto).
    cbn [negb]. rewrite Hsid.
    eexists. split; [reflexivity |]. cbn [method url params default].
    unfold id.
    split; [reflexivity |]. split; [reflexivity |].
    split; [rewrite lookup_omap; reflexivity |].
    split; [rewrite lookup_omap; destruct brand; reflexivity |].
    split; [rewrite lookup_omap; reflexivity |].
    split; [rewrite lookup_omap; reflexivity |].
    intros name N1 N2 N3 N4. rewrite lookup_omap.
    now rewrite !lookup_insert_ne, lookup_singleton_ne by congruence.
Qed.

(** X5.  [get_sales_history] raises its own [ValueError], and sends
    nothing, exactly when SKU, UPC and brand are all absent or empty.
    Otherwise it sends one GET to [/sales/history]; each argument that is
    not [None] travels under its camel-case name (an empty text included),
    and nothing else does. *)
Theorem get_sales_history_request {Payload : Type} (w : World Payload)
    (client : EWebClient)
    (sku upc brand start_date end_date location_id : option string)
    (sent : list Request) :
  let out :=
    get_sales_history w client sku upc brand start_date end_date location_id
      sent in
  (out = (Raise client_item_required, sent)
   <-> truthy sku = false /\ truthy upc = false /\ truthy brand = false)
  /\ (truthy sku = true \/ truthy upc = true \/ truthy brand = true ->
      exists request,
        out = (received w request, (sent ++ [request])%list)
        /\ method request = "GET"
        /\ url request = base_url (credentials client) +:+ "/sales/history"
        /\ params request !! "sku" = VStr <$> sku
        /\ params request !! "upc" = VStr <$> upc
        /\ params request !! "brand" = VStr <$> brand
        /\ params request !! "startDate" = VStr <$> start_date
        /\ params request !! "endDate" = VStr <$> end_date
        /\ params request !! "locationId" = VStr <$> location_id
        /\ forall name,
             name <> "sku" -> name <> "upc" -> name <> "brand" ->
             name <> "startDate" -> name <> "endDate" ->
             name <> "locationId" ->
             params request !! name = None).
Proof.
  intros out. subst out. unfold get_sales_history. cbn [existsb].
  rewrite orb_false_r.
  destruct (truthy sku || (truthy upc || truthy brand)) eqn:E; cbn [negb].
  - apply orb_true_iff in E. rewrite orb_true_iff in E. split.
    + split.
      * unfold _request. intros [= H _]. revert H.
        destruct (network w _); discriminate.
      * intros (H1 & H2 & H3). rewrite H1, H2, H3 in E.
        destruct E as [E | [E | E]]; discriminate.
    + intros _. eexists. split; [reflexivity |].
      cbn [method url params default]. unfold id.
      split; [reflexivity |]. split; [reflexivity |].
      assert (forall (o : option string) (m : gmap string (option pyval)) name,
                m !! name = Some (VStr <$> o) ->
                omap (fun v : option pyval => v) m !! name = VStr <$> o) as Hl.
      { intros o m name Hm. rewrite lookup_omap, Hm. now destruct o. }
      repeat split; try (apply Hl; reflexivity).
      intros name N1 N2 N3 N4 N5 N6. rewrite lookup_omap.
      now rewrite !lookup_insert_ne, lookup_singleton_ne by congruence.
  - apply orb_false_iff in E as [E1 E]. apply orb_false_iff in E as [E2 E3].
    split; [split; auto |].
    rewrite E1, E2, E3. intros [H | [H | H]]; discriminate.
Qed.

Lemma get_sales_history_request_witness :
  exists request,
    get_sales_history configured_world configured_client None None
      (Some "TechCo") (Some "2026-10-20") None None []
    = (Ok "{}", [request])
    /\ params request !! "brand" = Some (VStr "TechCo")
    /\ params request !! "startDate" = Some (VStr "2026-10-20")
    /\ params request !! "endDate" = None.
Proof.
  destruct (get_sales_history_request configured_world configured_client
              None None (Some "TechCo") (Some "2026-10-20") None None [])
    as [_ H].
  destruct H as (request & Hr & _ & _ & _ & _ & Hb & Hs & He & _).
  { right. right. reflexivity. }
  exists request. split; [exact Hr |]. auto.
Defined.

(** ** Further properties of the extractors *)

Lemma lower_char_idempotent (c : ascii) :
  lower_char (lower_char c) = lower_char c.
Proof. destruct c as [[] [] [] [] [] [] [] []]; reflexivity. Qed.

Lemma lower_idempotent (s : string) : lower (lower s) = lower s.
Proof.
  induction s as [|c s IH]; simpl; [reflexivity |].
  now rewrite lower_char_idempotent, IH.
Qed.

Lemma lower_char_not_AZ (c : ascii) : is_AZ (lower_char c) = false.
Proof. destruct c as [[] [] [] [] [] [] [] []]; reflexivity. Qed.

Lemma lower_no_capital (s : string) :
  all_chars (fun c => negb (is_AZ c)) (lower s) = true.
Proof.
  induction s as [|c s IH]; simpl; [reflexivity |].
  now rewrite lower_char_not_AZ, IH.
Qed.

(** X6.  Classification and time-window extraction do not see letter case:
    two texts with the same lower-cased form are classified alike and give
    the same window, and a text can be replaced by its lower-cased form. *)
Theorem classification_and_window_ignore_case (now : Z) (text1 text2 : string) :
  lower text1 = lower text2 ->
  classify text1 = classify text2
  /\ _extract_time_window now text1 = _extract_time_window now text2
  /\ classify (lower text1) = classify text1
  /\ _extract_time_window now (lower text1) = _extract_time_window now text1.
Proof.
  intros H. unfold classify, _extract_time_window.
  rewrite lower_idempotent, H. auto.
Qed.

Lemma classification_and_window_ignore_case_witness :
  lower "Sales LAST Two Weeks" = lower "sales last two weeks"
  /\ classify "Sales LAST Two Weeks" = Some SalesHistory
  /\ _extract_time_window 739923 "Sales LAST Two Weeks"
     = Ok (window (739923 - 14) 739923).
Proof.
  assert (lower "Sales LAST Two Weeks" = lower "sales last two weeks") as H
    by reflexivity.
  split; [exact H |].
  destruct (classification_and_window_ignore_case 739923 _ _ H)
    as (Hc & Hw & _).
  rewrite Hc, Hw. split; vm_compute; reflexivity.
Defined.

Lemma occurs_inside (sub s pre post : string) :
  occurs sub s -> occurs sub (pre +:+ s +:+ post).
Proof.
  intros (a & b & ->). exists (pre +:+ a), (b +:+ post).
  now rewrite !app_assoc_s.
Qed.

Lemma quantity_unit_at_occurs (s q u : string) :
  quantity_unit_at s q u -> In u unit_list /\ occurs u s.
Proof.
  intros (sep & tail & -> & _ & _ & Hu). split; [assumption |].
  exists (q +:+ sep), tail. now rewrite !app_assoc_s.
Qed.

(** X7.  A text that names no unit, that is, whose lower-cased form contains
    none of "day", "week", "month", "year", has no time window, whatever
    the date: the extractor returns the empty dictionary and cannot raise. *)
Theorem no_unit_no_window (now : Z) (text : string) :
  ~ occurs "day" (lower text) -> ~ occurs "week" (lower text) ->
  ~ occurs "month" (lower text) -> ~ occurs "year" (lower text) ->
  _extract_time_window now text = Ok ∅.
Proof.
  intros Hd Hw Hm Hy.
  assert (no_quantity_unit (lower text)) as Hno.
  { intros pre s q u Heq Hat.
    apply quantity_unit_at_occurs in Hat as [Hu Ho].
    apply (occurs_inside u s pre "") in Ho.
    rewrite app_nil_r_s, <- Heq in Ho.
    simpl in Hu. destruct Hu as [<- | [<- | [<- | [<- | []]]]]; auto. }
  unfold _extract_time_window. rewrite (find_quantity_unit_none _ Hno).
  assert (forall unit, ~ occurs unit (lower text) ->
            contains ("last " +:+ unit) (lower text) = false) as Hp.
  { intros unit Hu. apply contains_false. intros (pre & post & Heq).
    apply Hu. exists (pre +:+ "last "), post.
    rewrite Heq. now rewrite !app_assoc_s. }
  change "last year" with ("last " +:+ "year").
  change "last month" with ("last " +:+ "month").
  change "last week" with ("last " +:+ "week").
  now rewrite !Hp.
Qed.

Lemma no_unit_no_window_witness :
  _extract_time_window 739923 "Show TechCo sales" = Ok ∅.
Proof.
  apply no_unit_no_window; apply contains_false; reflexivity.
Defined.

Lemma extract_brand_spec (text : string) :
  first_token_spec None text (_extract_brand text).
Proof.
  apply (scan_first_token (S (String.length text)) None text). lia.
Qed.

Lemma no_capital_no_token (x pre t post : string) :
  all_chars (fun c => negb (is_AZ c)) x = true ->
  x = pre +:+ t +:+ post -> brand_token t -> False.
Proof.
  intros Hx -> (c & tl & -> & Hc & _).
  rewrite all_chars_app in Hx. apply andb_true_iff in Hx as [_ Hx].
  simpl in Hx. rewrite Hc in Hx. discriminate.
Qed.

(** X8.  A text without a capital letter A-Z has no brand; so lower-casing
    a query always loses its brand. *)
Theorem no_capital_no_brand (text : string) :
  (all_chars (fun c => negb (is_AZ c)) text = true -> _extract_brand text = None)
  /\ _extract_brand (lower text) = None.
Proof.
  assert (forall x, all_chars (fun c => negb (is_AZ c)) x = true ->
                    _extract_brand x = None) as H.
  { intros x Hx. pose proof (extract_brand_spec x) as Hs.
    destruct (_extract_brand x) as [b|]; [| reflexivity].
    destruct Hs as (pre & post & (Heq & Ht & _) & _).
    exfalso. eapply no_capital_no_token; eauto. }
  split; [apply H |]. apply H, lower_no_capital.
Qed.

(** X9.  A brand put into a plain context comes back: when a token (a
    capital followed by one or more letters, digits, ampersands,
    apostrophes or hyphens) that is no stopword stands after a text
    without capital letters and before a text that does not continue it,
    with a word boundary on either side, the extractor returns exactly that
    token. *)
Theorem brand_in_plain_context (pre t post : string) :
  all_chars (fun c => negb (is_AZ c)) pre = true ->
  brand_token t ->
  is_stopword (lower t) = false ->
  delimited (last_char None pre) t post ->
  starts_outside brand_char post ->
  _extract_brand (pre +:+ t +:+ post) = Some t.
Proof.
  intros Hpre Ht Hns Hd Hout.
  assert (token_from brand_token None (pre +:+ t +:+ post) pre t post) as Htok
    by (split; [reflexivity | split; assumption]).
  pose proof (extract_brand_spec (pre +:+ t +:+ post)) as Hs.
  destruct (_extract_brand (pre +:+ t +:+ post)) as [b|]; simpl in Hs.
  2: { rewrite (Hs _ _ _ Htok) in Hns. discriminate. }
  destruct Hs as (pre' & post' & Hb & _ & Hlong & Hfirst).
  pose proof Hb as (Heq & Hbt & _).
  destruct (Nat.lt_trichotomy (String.length pre') (String.length pre))
    as [Hlt | [Hlen | Hgt]].
  - (* the brand would start inside the plain text *)
    exfalso. symmetry in Heq.
    destruct (app_eq_app_s _ _ _ _ Heq) as (m & -> & Hm); [lia |].
    rewrite app_length_s in Hlt.
    destruct m as [|c m]; [simpl in Hlt; lia |].
    destruct Hbt as (c0 & tl & -> & Hc0 & _). simpl in Hm.
    injection Hm as <- _.
    rewrite all_chars_app in Hpre. apply andb_true_iff in Hpre as [_ Hpre].
    simpl in Hpre. rewrite Hc0 in Hpre. discriminate.
  - (* the brand starts where the token does *)
    symmetry in Heq.
    destruct (app_eq_app_s _ _ _ _ Heq) as (m & -> & Hm); [lia |].
    rewrite app_length_s in Hlen.
    destruct m as [|c m]; [| simpl in Hlen; lia].
    rewrite app_nil_r_s in *. simpl in Hm.
    specialize (Hlong _ _ Htok).
    symmetry in Hm.
    destruct (app_eq_app_s _ _ _ _ Hm Hlong) as (y & -> & Hy).
    destruct y as [|c y]; [now rewrite app_nil_r_s |].
    exfalso.
    destruct Ht as (c0 & t' & -> & _ & _ & _).
    destruct Hbt as (c1 & tl & Hbe & _ & _ & Htl).
    simpl in Hbe. injection Hbe as <- <-.
    rewrite all_chars_app in Htl. apply andb_true_iff in Htl as [_ Htl].
    simpl in Htl. rewrite (Hout c (y +:+ post') Hy) in Htl. discriminate.
  - (* the token would have been skipped as a stopword *)
    rewrite (Hfirst _ _ _ Htok Hgt) in Hns. discriminate.
Qed.

Lemma brand_in_plain_context_witness :
  _extract_brand ("show me the " +:+ "AT&T's" +:+ " stock, please")
  = Some "AT&T's".
Proof.
  apply brand_in_plain_context.
  - reflexivity.
  - exists "A"%char, "T&T's". repeat split; discriminate.
  - reflexivity.
  - split; reflexivity.
  - intros c r [= <- _]. reflexivity.
Defined.

Lemma quantity_of_token_cases (q : string) :
  quantity_token q ->
  ((String.length q <= int_max_str_digits)%nat
   /\ quantity_of q = Ok (quantity_value q) /\ (0 <= quantity_value q)%Z)
  \/ ((int_max_str_digits < String.length q)%nat
      /\ quantity_of q = Raise int_limit_exceeded).
Proof.
  intros Hq.
  destruct (Nat.le_gt_cases (String.length q) int_max_str_digits) as [Hle | Hgt].
  - left. split; [assumption |]. now apply quantity_of_token.
  - right. split; [assumption |].
    destruct Hq as [[Hne Hq] | Hq].
    + unfold quantity_of, isdigit, py_int.
      apply eqb_empty in Hne. rewrite Hne. simpl.
      rewrite (all_chars_impl is_digit isdigit_char)
        by (assumption
            || (intros c Hc; unfold isdigit_char; unfold is_digit in Hc;
                now rewrite Hc)).
      change (all_chars is_09 q = true) in Hq. rewrite Hq.
      apply Nat.ltb_lt in Hgt. now rewrite Hgt.
    + destruct (number_word_value q Hq) as (_ & _ & Hlen & _). lia.
Qed.

Lemma window_Raise (now quantity : Z) (unit : string) (e : exn) :
  rbind (delta_of quantity unit) (fun delta =>
    rbind (sub now delta) (fun start =>
      Ok ({[ "start_date" := strftime_Ymd start;
             "end_date" := strftime_Ymd now ]} : gmap string string)))
  = Raise e ->
  e = OverflowError.
Proof.
  unfold delta_of, timedelta, sub.
  repeat match goal with
         | |- context [if ?b then _ else _] => destruct b; cbn [rbind]
         end;
    intros H; try discriminate H; now injection H as <-.
Qed.

(** The only exceptions of [_extract_time_window]: the two of the
    calendar and of [int]; the pattern lets neither an invalid literal nor a
    short tuple through. *)
Lemma extract_time_window_Raise_cases (now : Z) (text : string) (e : exn) :
  _extract_time_window now text = Raise e ->
  e = OverflowError \/ e = int_limit_exceeded.
Proof.
  unfold _extract_time_window.
  destruct (quantity_unit_dichotomy (lower text)) as [(q & u & Hl) | Hno].
  - rewrite (find_quantity_unit_leftmost _ _ _ Hl).
    destruct Hl as (_ & s & _ & (sep & tail & _ & Hq & _ & _) & _).
    destruct (quantity_of_token_cases q Hq) as [(_ & -> & _) | (_ & ->)];
      cbn [rbind].
    + intros H. left. eapply window_Raise; eauto.
    + intros [= <-]. now right.
  - rewrite (find_quantity_unit_none _ Hno).
    destruct (contains "last year" (lower text));
      [cbn [rbind]; intros H; left; eapply window_Raise; eauto |].
    destruct (contains "last month" (lower text));
      [cbn [rbind]; intros H; left; eapply window_Raise; eauto |].
    destruct (contains "last week" (lower text));
      [cbn [rbind]; intros H; left; eapply window_Raise; eauto |].
    discriminate.
Qed.

(** X10.  When the leftmost quantity and unit of a text put the start of
    the window before 0001-01-01, [_extract_time_window] raises
    [OverflowError]; when the quantity is a digit sequence longer than the
    interpreter accepts, it raises the [ValueError] of [int].  It raises
    nothing else, and whether it raises is decided by the leftmost quantity
    and unit alone. *)
Theorem extract_time_window_raises (now : Z) (text q u : string) :
  valid_ordinal now ->
  leftmost_quantity_unit (lower text) q u ->
  ((String.length q <= int_max_str_digits)%nat ->
   (now - days_per_unit u * quantity_value q < 1)%Z ->
   _extract_time_window now text = Raise OverflowError)
  /\ ((int_max_str_digits < String.length q)%nat ->
      _extract_time_window now text = Raise int_limit_exceeded)
  /\ (forall e,
        _extract_time_window now text = Raise e ->
        (e = OverflowError
         /\ (String.length q <= int_max_str_digits)%nat
         /\ (now - days_per_unit u * quantity_value q < 1)%Z)
        \/ (e = int_limit_exceeded
            /\ (int_max_str_digits < String.length q)%nat)).
Proof.
  intros Hnow Hl.
  assert ((int_max_str_digits < String.length q)%nat ->
          _extract_time_window now text = Raise int_limit_exceeded) as Hlong.
  { intros Hgt. unfold _extract_time_window.
    rewrite (find_quantity_unit_leftmost _ _ _ Hl).
    destruct Hl as (_ & s & _ & (sep & tail & _ & Hq & _ & _) & _).
    destruct (quantity_of_token_cases q Hq) as [(Hle & _) | (_ & ->)];
      [lia | reflexivity]. }
  split; [| split; [exact Hlong |]].
  - intros Hlen Hr.
    rewrite (extract_time_window_leftmost now text q u) by assumption.
    apply Z.ltb_lt in Hr. rewrite Z.leb_antisym, Hr. reflexivity.
  - intros e He.
    destruct (Nat.le_gt_cases (String.length q) int_max_str_digits) as [Hle | Hgt].
    + left. rewrite (extract_time_window_leftmost now text q u) in He
        by assumption.
      destruct (1 <=? now - days_per_unit u * quantity_value q)%Z eqn:E;
        [discriminate |].
      apply Z.leb_gt in E. injection He as <-. auto.
    + right. rewrite (Hlong Hgt) in He. injection He as <-. auto.
Qed.

Lemma extract_time_window_raises_witness :
  valid_ordinal 739923
  /\ leftmost_quantity_unit (lower "Sales of the last 2027 YEARS") "2027" "year"
  /\ _extract_time_window 739923 "Sales of the last 2027 YEARS"
     = Ok (window 68 739923)
  /\ _extract_time_window 739923 "Sales of the last 2028 YEARS"
     = Raise OverflowError.
Proof.
  assert (valid_ordinal 739923) as Hnow
    by (unfold valid_ordinal, _MAXORDINAL; lia).
  split; [exact Hnow |].
  split; [eapply leftmost_from_search; [vm_compute; reflexivity | reflexivity] |].
  split; [vm_compute; reflexivity |].
  assert (leftmost_quantity_unit (lower "Sales of the last 2028 YEARS")
            "2028" "year") as Hl
    by (eapply leftmost_from_search; [vm_compute; reflexivity | reflexivity]).
  destruct (extract_time_window_raises 739923 "Sales of the last 2028 YEARS"
              "2028" "year" Hnow Hl) as (H & _).
  apply H.
  - unfold int_max_str_digits. simpl. lia.
  - vm_compute. reflexivity.
Defined.

(** ** Further properties of [handle_intent] *)

Lemma init_Raise {Payload : Type} (w : World Payload) (b k a d : option string)
    (e : exn) :
  __init__ w b k a d = Raise e -> e = base_url_required \/ e = api_key_required.
Proof.
  unfold __init__.
  destruct (truthy (or_else b (environ w !! "EWEB_BASE_URL"))); cbn [negb];
    [| intros [= <-]; now left].
  destruct (truthy (or_else k (environ w !! "EWEB_API_KEY"))); cbn [negb];
    [discriminate | intros [= <-]; now right].
Qed.

(** Every way a run of the handler can go. *)
Lemma handle_intent_outcome {Payload : Type} (w : World Payload)
    (payload : IntentRequest) (sent : list Request) :
  let out := handle_intent w payload sent in
  let brand := _extract_brand (query payload) in
  (exists e,
      (e = base_url_required \/ e = api_key_required)
      /\ __init__ w None None None None = Raise e
      /\ out = (Raise e, sent))
  \/ exists client,
       __init__ w None None None None = Ok client
       /\ let supplier :=
            or_else (supplier_id payload)
              (default_supplier_id (credentials client)) in
          (classify (query payload) = Some SupplierStock
           /\ truthy supplier = false
           /\ out = (Raise supplier_required, sent))
          \/ (classify (query payload) = Some SupplierStock
              /\ exists sid,
                   supplier = Some sid /\ sid <> ""
                   /\ out
                      = (rbind (received w (stock_request client sid brand))
                           (fun data =>
                              Ok {| intent := "supplier_stock";
                                    parameters :=
                                      {[ "supplier_id" := Some sid;
                                         "brand" := brand ]};
                                    data := data |}),
                         (sent ++ [stock_request client sid brand])%list))
          \/ (classify (query payload) = Some SalesHistory
              /\ exists e,
                   (e = brand_required \/ e = TypeError
                    \/ e = OverflowError \/ e = int_limit_exceeded)
                   /\ out = (Raise e, sent))
          \/ (classify (query payload) = None
              /\ out = (Raise unrecognized_intent, sent)).
Proof.
  intros out brand. subst out. rewrite handle_intent_resolve.
  destruct (__init__ w None None None None) as [client|e] eqn:Hinit.
  2: { left. exists e. split; [eapply init_Raise; eauto | auto]. }
  right. exists client. split; [reflexivity |]. cbv zeta.
  destruct (classify (query payload)) as [[]|]; cbn [resolve].
  - destruct (truthy (or_else (supplier_id payload)
                        (default_supplier_id (credentials client)))) eqn:Ht.
    + right. left. split; [reflexivity |].
      apply truthy_Some in Ht as (sid & Hsid & Hne).
      exists sid. split; [assumption |]. split; [assumption |].
      now apply resolve_supplier_stock_sends.
    + left. split; [reflexivity |]. split; [reflexivity |].
      now apply resolve_supplier_stock_missing.
  - right. right. left. split; [reflexivity |].
    rewrite resolve_sales_history_cases.
    destruct (_extract_time_window (utcnow w) (query payload)) as [d|e] eqn:Etw.
    + destruct (_extract_brand (query payload)); eauto 6.
    + exists e. split; [| reflexivity].
      apply extract_time_window_Raise_cases in Etw as [-> | ->]; auto.
  - right. right. right. auto.
Qed.

(** X11.  A run of the handler leaves the requests already sent as they
    are and adds at most one, which is then the stock lookup of a
    SupplierStock query, for a supplier that is not empty and the brand of
    the query: the handler never sends anything for a sales query. *)
Theorem handler_sends_at_most_one {Payload : Type} (w : World Payload)
    (payload : IntentRequest) (sent : list Request) :
  snd (handle_intent w payload sent) = sent
  \/ exists client sid,
       __init__ w None None None None = Ok client
       /\ classify (query payload) = Some SupplierStock
       /\ (if truthy (supplier_id payload) then supplier_id payload
           else environ w !! "EWEB_DEFAULT_SUPPLIER_ID") = Some sid
       /\ sid <> ""
       /\ snd (handle_intent w payload sent)
          = (sent ++ [stock_request client sid
                        (_extract_brand (query payload))])%list.
Proof.
  destruct (handle_intent_outcome w payload sent)
    as [(e & _ & _ & ->)
       | (client & Hinit
          & [(_ & _ & ->)
            | [(Hk & sid & Hsid & Hne & ->)
              | [(_ & e & _ & ->) | (_ & ->)]]])];
    try (left; reflexivity).
  right. exists client, sid.
  destruct (init_Ok w client Hinit) as (_ & _ & Hd).
  unfold or_else in Hsid. rewrite Hd in Hsid. auto.
Qed.

(** X12.  When the handler returns a response, the query was a
    SupplierStock query, the intent reported is "supplier_stock", the
    parameters are a supplier identifier that is not empty together with the
    brand of the query (null when the query names none), exactly one request
    was sent and the data are the payload the service answered it with.  No
    response ever reports the intent "sales_history". *)
Theorem handler_response_shape {Payload : Type} (w : World Payload)
    (payload : IntentRequest) (sent : list Request)
    (response : IntentResponse Payload) :
  fst (handle_intent w payload sent) = Ok response ->
  exists client sid,
    __init__ w None None None None = Ok client
    /\ classify (query payload) = Some SupplierStock
    /\ sid <> ""
    /\ intent response = "supplier_stock"
    /\ intent response <> "sales_history"
    /\ parameters response !! "supplier_id" = Some (Some sid)
    /\ parameters response !! "brand" = Some (_extract_brand (query payload))
    /\ (forall name, name <> "supplier_id" -> name <> "brand" ->
                     parameters response !! name = None)
    /\ snd (handle_intent w payload sent)
       = (sent ++ [stock_request client sid
                     (_extract_brand (query payload))])%list
    /\ network w (stock_request client sid (_extract_brand (query payload)))
       = Received (data response).
Proof.
  destruct (handle_intent_outcome w payload sent)
    as [(e & _ & _ & ->)
       | (client & Hinit
          & [(_ & _ & ->)
            | [(Hk & sid & Hsid & Hne & ->)
              | [(_ & e & _ & ->) | (_ & ->)]]])];
    cbn [fst snd]; try discriminate.
  unfold received.
  destruct (network w (stock_request client sid
                         (_extract_brand (query payload)))) as [data0|info]
    eqn:Hn; cbn [rbind]; [| discriminate].
  intros [= <-]. exists client, sid. cbn [intent parameters data].
  split; [exact Hinit |]. split; [exact Hk |]. split; [exact Hne |].
  split; [reflexivity |]. split; [discriminate |].
  split; [apply lookup_insert_eq |].
  split; [rewrite lookup_insert_ne by discriminate; apply lookup_singleton_eq |].
  split; [| split; [reflexivity | exact Hn]].
  intros name N1 N2.
  now rewrite lookup_insert_ne, lookup_singleton_ne by congruence.
Qed.

Lemma handler_response_shape_witness :
  let payload := {| query := "show Stock for Rolex"; supplier_id := Some "S9" |} in
  let response :=
    {| intent := "supplier_stock";
       parameters := {[ "supplier_id" := Some "S9"; "brand" := Some "Rolex" ]};
       data := "{}" |} in
  fst (handle_intent configured_world payload []) = Ok response
  /\ exists client sid,
       snd (handle_intent configured_world payload [])
       = [stock_request client sid (Some "Rolex")]
       /\ parameters response !! "supplier_id" = Some (Some sid).
Proof.
  intros payload response.
  assert (fst (handle_intent configured_world payload []) = Ok response) as H
    by (vm_compute; reflexivity).
  split; [exact H |].
  destruct (handler_response_shape configured_world payload [] response H)
    as (client & sid & _ & _ & _ & _ & _ & Hs & _ & _ & Hl & _).
  exists client, sid. split; [exact Hl | exact Hs].
Defined.

(** X13.  The exceptions of the handler.  It raises one of the two
    configuration errors, one of its three client errors (status 400), the
    [TypeError] of the sales call, or one of the two exceptions of the time
    window, all before anything is sent; or it passes on the failure of the
    one request it sent.  The client's own checks of the supplier and of the
    item never fire under the handler. *)
Theorem handler_exceptions {Payload : Type} (w : World Payload)
    (payload : IntentRequest) (sent : list Request) (e : exn) :
  fst (handle_intent w payload sent) = Raise e ->
  e <> client_supplier_required
  /\ e <> client_item_required
  /\ (((e = base_url_required \/ e = api_key_required
        \/ e = supplier_required \/ e = brand_required
        \/ e = unrecognized_intent \/ e = TypeError
        \/ e = OverflowError \/ e = int_limit_exceeded)
       /\ snd (handle_intent w payload sent) = sent)
      \/ exists info request,
           e = HTTPError info
           /\ network w request = Failed info
           /\ snd (handle_intent w payload sent) = (sent ++ [request])%list).
Proof.
  intros He.
  assert (((e = base_url_required \/ e = api_key_required
        \/ e = supplier_required \/ e = brand_required
        \/ e = unrecognized_intent \/ e = TypeError
        \/ e = OverflowError \/ e = int_limit_exceeded)
       /\ snd (handle_intent w payload sent) = sent)
      \/ exists info request,
           e = HTTPError info
           /\ network w request = Failed info
           /\ snd (handle_intent w payload sent) = (sent ++ [request])%list)
    as H.
  { revert He.
    destruct (handle_intent_outcome w payload sent)
      as [(e' & He' & _ & ->)
         | (client & Hinit
            & [(_ & _ & ->)
              | [(Hk & sid & Hsid & Hne & ->)
                | [(_ & e' & He' & ->) | (_ & ->)]]])];
      cbn [fst snd].
    - intros [= <-]. left. split; [tauto | reflexivity].
    - intros [= <-]. left. split; [tauto | reflexivity].
    - unfold received.
      destruct (network w (stock_request client sid
                             (_extract_brand (query payload)))) as [d0|info]
        eqn:Hn; cbn [rbind]; [discriminate |].
      intros [= <-]. right. eauto.
    - intros [= <-]. left. split; [tauto | reflexivity].
    - intros [= <-]. left. split; [tauto | reflexivity]. }
  split; [| split; [| exact H]].
  - destruct H as [[H _] | (info & request & -> & _)]; [| discriminate].
    repeat (destruct H as [-> | H]; [discriminate |]). subst e. discriminate.
  - destruct H as [[H _] | (info & request & -> & _)]; [| discriminate].
    repeat (destruct H as [-> | H]; [discriminate |]). subst e. discriminate.
Qed.

Lemma handler_exceptions_witness :
  let w : World string :=
    {| environ := environ configured_world;
       utcnow := 739923;
       network := fun _ => Failed "503 Service Unavailable" |} in
  let payload := {| query := "Show ACME stock"; supplier_id := None |} in
  fst (handle_intent w payload []) = Raise (HTTPError "503 Service Unavailable")
  /\ exists request, snd (handle_intent w payload []) = [request].
Proof.
  intros w payload.
  assert (fst (handle_intent w payload [])
          = Raise (HTTPError "503 Service Unavailable")) as H
    by (vm_compute; reflexivity).
  split; [exact H |].
  destruct (handler_exceptions w payload [] _ H)
    as (_ & _ & [[He _] | (info & request & _ & _ & Hs)]).
  - repeat (destruct He as [He | He]; [discriminate He |]). discriminate He.
  - exists request. exact Hs.
Defined.

(** X14.  What a caller of [POST /intent] sees.  The status is 200, 400 or
    500.  It is 200 only for a SupplierStock query, and 400 exactly for the
    three client errors of the handler (no supplier, no brand, intent not
    recognized).  Without the base URL or the API key every request ends in
    500; and so does, with them, every sales query that names a brand. *)
Theorem handler_status {Payload : Type} (w : World Payload)
    (payload : IntentRequest) (sent : list Request) :
  let outcome := fst (handle_intent w payload sent) in
  (http_status outcome = 200 \/ http_status outcome = 400
   \/ http_status outcome = 500)%Z
  /\ (http_status outcome = 200%Z ->
      classify (query payload) = Some SupplierStock)
  /\ (http_status outcome = 400%Z <->
      outcome = Raise supplier_required \/ outcome = Raise brand_required
      \/ outcome = Raise unrecognized_intent)
  /\ (truthy (environ w !! "EWEB_BASE_URL") = false
      \/ truthy (environ w !! "EWEB_API_KEY") = false ->
      http_status outcome = 500%Z)
  /\ (forall client b,
        __init__ w None None None None = Ok client ->
        classify (query payload) = Some SalesHistory ->
        _extract_brand (query payload) = Some b ->
        http_status outcome = 500%Z).
Proof.
  intros outcome. subst outcome.
  destruct (handle_intent_outcome w payload sent)
    as [(e & He & Hinit & ->)
       | (client & Hinit
          & [(Hk & _ & ->)
            | [(Hk & sid & Hsid & Hne & ->)
              | [(Hk & e & He & Hout) | (Hk & ->)]]])];
    cbn [fst].
  - (* configuration *)
    assert (http_status (Raise e : result (IntentResponse Payload)) = 500%Z) as Hs
      by (destruct He as [-> | ->]; reflexivity).
    rewrite Hs.
    split; [auto |]. split; [discriminate |].
    split; [| split; [reflexivity |]].
    + split; [discriminate |].
      intros [H | [H | H]]; injection H as ->;
        destruct He as [He | He]; discriminate He.
    + intros client b Hc. rewrite Hinit in Hc. discriminate.
  - (* no supplier *)
    split; [auto |]. split; [discriminate |].
    split; [split; auto |]. split.
    + intros H. apply init_Ok in Hinit as (Hb & Hkey & _).
      destruct H as [H | H]; congruence.
    + intros c b _ Hc. rewrite Hk in Hc. discriminate.
  - (* stock lookup *)
    unfold received.
    destruct (network w _) as [d0|info]; cbn [rbind http_status].
    + split; [auto |]. split; [auto |].
      split; [split; [discriminate | intros [H | [H | H]]; discriminate H] |].
      split.
      * intros H. apply init_Ok in Hinit as (Hb & Hkey & _).
        destruct H as [H | H]; congruence.
      * intros c b _ Hc. rewrite Hk in Hc. discriminate.
    + split; [auto |]. split; [discriminate |].
      split; [split; [discriminate | intros [H | [H | H]]; discriminate H] |].
      split; [reflexivity |]. reflexivity.
  - (* sales *)
    assert (forall b, _extract_brand (query payload) = Some b ->
                      e <> brand_required) as Hnb.
    { intros b Hb ->.
      pose proof (handle_intent_resolve w payload sent) as Hr.
      rewrite Hout, Hinit, Hk in Hr. cbn [resolve] in Hr.
      rewrite resolve_sales_history_cases, Hb in Hr.
      destruct (_extract_time_window (utcnow w) (query payload)) as [d|e']
        eqn:Hw; [discriminate Hr |].
      injection Hr as <-.
      destruct (extract_time_window_Raise_cases _ _ _ Hw) as [H | H];
        discriminate H. }
    rewrite Hout. cbn [fst].
    split.
    { destruct He as [-> | [-> | [-> | ->]]]; cbn; auto. }
    split.
    { destruct He as [-> | [-> | [-> | ->]]]; cbn; discriminate. }
    split.
    { split.
      - destruct He as [-> | [-> | [-> | ->]]]; cbn; auto; discriminate.
      - intros [H | [H | H]]; injection H as ->; reflexivity. }
    split.
    { intros H. apply init_Ok in Hinit as (Hb & Hkey & _).
      destruct H as [H | H]; congruence. }
    intros c b _ _ Hb. specialize (Hnb b Hb).
    destruct He as [-> | [-> | [-> | ->]]]; [congruence | | |]; reflexivity.
  - (* intent not recognized *)
    split; [auto |]. split; [discriminate |].
    split; [split; auto |]. split.
    + intros H. apply init_Ok in Hinit as (Hb & Hkey & _).
      destruct H as [H | H]; congruence.
    + intros c b _ Hc. rewrite Hk in Hc. discriminate.
Qed.

(** X15.  A stock query written without capital letters is never filtered
    by brand: whatever the handler sends for it carries no [brand]
    parameter, and a response reports the brand as [None]. *)
Theorem stock_query_without_capitals {Payload : Type} (w : World Payload)
    (payload : IntentRequest) (sent : list Request) :
  classify (query payload) = Some SupplierStock ->
  all_chars (fun c => negb (is_AZ c)) (query payload) = true ->
  (snd (handle_intent w payload sent) = sent
   \/ exists request,
        snd (handle_intent w payload sent) = (sent ++ [request])%list
        /\ params request !! "brand" = None)
  /\ forall response,
       fst (handle_intent w payload sent) = Ok response ->
       parameters response !! "brand" = Some None.
Proof.
  intros Hk Hc.
  assert (_extract_brand (query payload) = None) as Hb.
  { pose proof (extract_brand_spec (query payload)) as Hs.
    destruct (_extract_brand (query payload)) as [b|]; [| reflexivity].
    destruct Hs as (pre & post & (Heq & Ht & _) & _).
    exfalso. eapply no_capital_no_token; eauto. }
  pose proof (handle_intent_outcome w payload sent) as Ho.
  cbv zeta in Ho. rewrite Hb in Ho.
  destruct Ho
    as [(e & _ & _ & ->)
       | (client & _
          & [(_ & _ & ->)
            | [(_ & sid & _ & _ & ->)
              | [(Hk' & _) | (Hk' & _)]]])];
    cbn [fst snd]; try congruence.
  - split; [now left | discriminate].
  - split; [now left | discriminate].
  - split.
    + right. eexists. split; [reflexivity |]. reflexivity.
    + intros response. unfold received.
      destruct (network w _); cbn [rbind]; [| discriminate].
      intros [= <-]. reflexivity.
Qed.

Lemma stock_query_without_capitals_witness :
  let payload := {| query := "any rolex in stock?"; supplier_id := Some "S9" |} in
  exists request,
    snd (handle_intent configured_world payload []) = [request]
    /\ params request !! "brand" = None.
Proof.
  intros payload.
  destruct (stock_query_without_capitals configured_world payload [])
    as ([H | H] & _).
  - vm_compute. reflexivity.
  - vm_compute. reflexivity.
  - exfalso. revert H. vm_compute. discriminate.
  - exact H.
Defined.
